(** * nni.retiarii.converter.utils: matching traced operations to graph nodes

    A shallow embedding of [nni/retiarii/converter/utils.py] and the
    properties of its name composition, trace-metadata extraction,
    layer-choice detection, scope resolution and node matching. *)

From stdpp Require Import gmap strings list fin_maps pretty.
From Stdlib Require Import ZArith Ascii.

Local Open Scope Z_scope.

(** ** Python values, exceptions and built-ins used by the module *)

Module Py.

(** The Python values that occur as operation parameters, constants of
    a trace and sequence numbers. *)
Inductive pyval : Type :=
| VNone
| VBool (b : bool)
| VInt (z : Z)
| VStr (s : string).

#[global] Instance pyval_eq_dec : EqDecision pyval.
Proof. solve_decision. Defined.

(** [str(v)], which is also what [{}] in [str.format] and in an
    f-string produces for these values. *)
Definition str (v : pyval) : string :=
  match v with
  | VNone => "None"
  | VBool true => "True"
  | VBool false => "False"
  | VInt z => pretty z
  | VStr s => s
  end.

(** The exceptions the module can run into. *)
Inductive exn : Type :=
| IndexError
| KeyError (key : string)
| AttributeError
| RuntimeError.

(** A computation that returns a value or raises. *)
Inductive result (A : Type) : Type :=
| Ok (a : A)
| Raise (e : exn).
Arguments Ok {A} a.
Arguments Raise {A} e.

#[global] Instance result_ret : MRet result := λ A a, Ok a.
#[global] Instance result_bind : MBind result := λ A B f r,
  match r with
  | Ok a => f a
  | Raise e => Raise e
  end.

Definition raises {A} (r : result A) : bool :=
  match r with
  | Ok _ => false
  | Raise _ => true
  end.

(** [l[i]] for a list: a negative index counts from the end, an index
    out of range raises [IndexError]. *)
Definition getitem {A} (l : list A) (i : Z) : result A :=
  let j := if i <? 0 then i + Z.of_nat (List.length l) else i in
  if j <? 0 then Raise IndexError
  else match l !! Z.to_nat j with
       | Some x => Ok x
       | None => Raise IndexError
       end.

(** [d[k]] for a dict: a missing key raises [KeyError]. *)
Definition getkey {V} (d : gmap string V) (k : string) : result V :=
  match d !! k with
  | Some v => Ok v
  | None => Raise (KeyError k)
  end.

(** [range(n)]. *)
Definition range (n : nat) : list Z := Z.of_nat <$> seq 0 n.

(** A [for] loop whose body updates one variable and may raise. *)
Fixpoint for_each {S A} (body : S → A → result S) (l : list A) (s : S)
  : result S :=
  match l with
  | [] => Ok s
  | x :: l' => s' ← body s x; for_each body l' s'
  end.

(** A list comprehension [[f(x) for x in l]] whose element expression
    may raise: the elements are computed from left to right and the
    first exception ends the comprehension. *)
Fixpoint comprehension {A B} (f : A → result B) (l : list A)
  : result (list B) :=
  match l with
  | [] => Ok []
  | x :: l' => y ← f x; ys ← comprehension f l'; mret (y :: ys)
  end.

(** [sep.join(l)]. *)
Definition join (sep : string) (l : list string) : string :=
  String.concat sep l.

(** [s.split(sep)] for a separator of one character: every occurrence
    splits, and the result is never empty. *)
Fixpoint split (sep : ascii) (s : string) : list string :=
  match s with
  | EmptyString => [EmptyString]
  | String c s' =>
      if Ascii.eqb c sep then EmptyString :: split sep s'
      else match split sep s' with
           | [] => [String c EmptyString]
           | w :: ws => String c w :: ws
           end
  end.

(** [s.replace(old, new)] for [old] of one character. *)
Fixpoint replace (old : ascii) (new : string) (s : string) : string :=
  match s with
  | EmptyString => EmptyString
  | String c s' =>
      if Ascii.eqb c old then new +:+ replace old new s'
      else String c (replace old new s')
  end.

(** Does the character occur in the string? *)
Fixpoint occurs (c : ascii) (s : string) : bool :=
  match s with
  | EmptyString => false
  | String c' s' => Ascii.eqb c' c || occurs c s'
  end.

End Py.
Export Py.

(** ** Name composition *)

(** The [name] argument of [build_full_name]: one identifier or a list
    of identifiers. *)
Inductive name_arg : Type :=
| NameStr (s : string)
| NameList (l : list string).

(** [build_full_name(prefix, name, seq=None)] *)
Definition build_full_name (prefix : string) (name : name_arg) (seq : pyval)
  : string :=
  let name :=
    match name with
    | NameList l => join "__" l
    | NameStr s => s
    end in
  match seq with
  | VNone => prefix +:+ "__" +:+ name
  | _ => prefix +:+ "__" +:+ name +:+ str seq
  end.

(** [build_cand_name(name, label)] *)
Definition build_cand_name (name : string) (label : pyval) : string :=
  "layerchoice_" +:+ str label +:+ "_" +:+ name.

(** [_convert_name(name)] *)
Definition _convert_name (name : string) : string :=
  replace "."%char "__" name.

(** ** The execution trace (torch._C handles) *)

Module Torch.

Definition shape : Type := list Z.

(** What [sizes()] returns: a list of dimensions, or [None] when the
    shape is not known. *)
Definition pyshape : Type := option shape.

(** [if shape:] holds for a list with at least one dimension. *)
Definition truthy (s : pyshape) : bool :=
  match s with
  | Some (_ :: _) => true
  | _ => false
  end.

(** A type handle, read through [kind()] and [sizes()]: the name of
    its kind and, for a tensor type, the sizes it records. *)
Record TorchType : Type := mkTorchType {
  type_kind : string;
  tensor_sizes : pyshape
}.

(** [sizes()] is defined for a tensor type only: on a type of any other
    kind the call raises [RuntimeError]. *)
Definition sizes (t : TorchType) : result pyshape :=
  if bool_decide (type_kind t = "TensorType") then Ok (tensor_sizes t)
  else Raise RuntimeError.

(** A value handle, read through [type()], [node()] (the operation
    that produces it) and [toIValue()] (its constant, [None] when it
    has none), and an operation record, read through [kind()],
    [scopeName()], [inputs()] and [outputs()]. The trace is unfolded
    as a tree along [inputs()] and [node()]. *)
Inductive Value : Type :=
  mkValue (type_of : TorchType) (ivalue : pyval) (producer : TraceNode)
with TraceNode : Type :=
  mkTraceNode (node_kind : string) (scope : string)
              (ins : list Value) (outs : list Value).

Definition type (v : Value) : TorchType :=
  let (t, _, _) := v in t.
Definition toIValue (v : Value) : pyval :=
  let (_, c, _) := v in c.
Definition node (v : Value) : TraceNode :=
  let (_, _, n) := v in n.

Definition kind (n : TraceNode) : string :=
  let (k, _, _, _) := n in k.
Definition scopeName (n : TraceNode) : string :=
  let (_, s, _, _) := n in s.
Definition inputs (n : TraceNode) : list Value :=
  let (_, _, i, _) := n in i.
Definition outputs (n : TraceNode) : list Value :=
  let (_, _, _, o) := n in o.

End Torch.
Export Torch.

(** ** The graph representation ([nni.retiarii.graph], [nni.retiarii.operation]) *)

Module IR.

(** Modelled from the spec: the classes [Operation] and [Cell] of
    [nni/retiarii/operation.py]. An operation is a tagged variant,
    either a generic operation or a [Cell]; it has a kind ([type]), a
    [parameters] mapping in which keys such as [mutation] and [label]
    may be missing, and an [attributes] mapping that always includes
    [input_shape] and [output_shape], empty until shape inference
    fills them. *)
Inductive variant : Type := Generic | Cell.

#[global] Instance variant_eq_dec : EqDecision variant.
Proof. solve_decision. Defined.

Record Attributes : Type := mkAttributes {
  input_shape : list pyshape;
  output_shape : list pyshape
}.

Record Operation : Type := mkOperation {
  op_variant : variant;
  op_type : string;
  parameters : gmap string pyval;
  attributes : Attributes
}.

(** Modelled from the spec: the class [Node] of
    [nni/retiarii/graph.py], one operation instance with its name. *)
Record Node : Type := mkNode {
  name : string;
  operation : Operation
}.

(** Modelled from the spec: the class [Graph] of
    [nni/retiarii/graph.py], an ordered collection of nodes. *)
Record Graph : Type := mkGraph {
  nodes : list Node
}.

(** Modelled from the spec: the class [Model] of
    [nni/retiarii/graph.py], the sub-graphs keyed by name. *)
Record Model : Type := mkModel {
  graphs : gmap string Graph
}.

(** Modelled from the spec: [Graph.get_nodes_by_type], the nodes of
    the graph whose operation kind is the given one, in the graph's
    node order. *)
Definition get_nodes_by_type (g : Graph) (operation_type : string)
  : list Node :=
  filter (λ n, op_type (operation n) = operation_type) (nodes g).

(** All the nodes of a model, graph after graph. *)
Definition all_nodes (m : Model) : list Node :=
  (map_to_list (graphs m)).*2 ≫= nodes.

(** Modelled from the spec: [Model.get_node_by_name], the node of the
    model with exactly the given name, absent when there is none. Node
    names are unique within a model; were one repeated, the first
    node found is taken. *)
Definition get_node_by_name (m : Model) (node_name : string)
  : option Node :=
  head (filter (λ n, name n = node_name) (all_nodes m)).

(** [isinstance(op, Cell)] *)
Definition is_Cell (op : Operation) : bool :=
  bool_decide (op_variant op = Cell).

(** [d.get(k)]: [None] for a missing key. *)
Definition get (d : gmap string pyval) (k : string) : pyval :=
  default VNone (d !! k).

End IR.
Export IR.

(** ** Trace metadata extraction *)

(** The dict [{'input_shape': ..., 'output_shape': ...}] that the
    extractor returns. *)
Record ShapeParameters : Type := mkShapeParameters {
  sp_input_shape : list pyshape;
  sp_output_shape : list pyshape
}.

(** The body of the two loops over value handles: the shape of a value
    is appended when its type is a tensor type and the shape is
    truthy. *)
Definition append_shape (acc : list pyshape) (v : Value)
  : result (list pyshape) :=
  let ty := type v in
  if bool_decide (type_kind ty = "TensorType") then
    shape ← sizes ty;
    if truthy shape then mret (acc ++ [shape]) else mret acc
  else mret acc.

(** [_extract_info_from_trace_node(trace_node)] *)
Definition _extract_info_from_trace_node (trace_node : TraceNode)
  : result (ShapeParameters * option (gmap string pyval)) :=
  let inputs := inputs trace_node in
  input_shape ←
    (if bool_decide (kind trace_node = "aten::cat") then
       first ← getitem inputs 0;
       comprehension (λ input, sizes (type input)) (Torch.inputs (node first))
     else
       for_each append_shape inputs []);
  output_shape ← for_each append_shape (outputs trace_node) [];
  let shape_parameters :=
    {| sp_input_shape := input_shape; sp_output_shape := output_shape |} in
  if bool_decide (kind trace_node = "aten::cat") then
    second ← getitem inputs 1;
    mret (shape_parameters, Some {[ "dim" := toIValue second ]})
  else
    mret (shape_parameters, None).

(** ** Layer-choice detection *)

(** [is_layerchoice_node(ir_node)] *)
Definition is_layerchoice_node (ir_node : option Node) : bool :=
  match ir_node with
  | Some n =>
      is_Cell (operation n)
      && bool_decide (get (parameters (operation n)) "mutation"
                      = VStr "layerchoice")
  | None => false
  end.

(** ** Scope resolution *)

(** The body of the loop of [get_full_name_by_scope_name]: the next
    value of [full_name]. *)
Definition next_full_name (ir_model : Model) (scope_names : list string)
    (full_name : string) (last_scope : Z) : result string :=
  let ir_node := get_node_by_name ir_model full_name in
  if is_layerchoice_node ir_node then
    match ir_node with
    | Some n =>
        label ← getkey (parameters (operation n)) "label";
        segment ← getitem scope_names last_scope;
        mret ("layerchoice_" +:+ str label +:+ "_" +:+ segment)
    | None => Raise AttributeError
    end
  else
    segment ← getitem scope_names last_scope;
    mret (build_full_name full_name (NameStr segment) VNone).

(** [get_full_name_by_scope_name(ir_model, scope_names, prefix='')] *)
Definition get_full_name_by_scope_name (ir_model : Model)
    (scope_names : list string) (prefix : string) : result string :=
  for_each (next_full_name ir_model scope_names)
           (range (length scope_names)) prefix.

(** ** Node matching *)

(** The loop of [match_node] over the nodes of the wanted kind: the
    first one whose [input_shape] is empty, [None] when there is none. *)
Fixpoint first_unshaped (candidates : list Node) : option Node :=
  match candidates with
  | [] => None
  | node :: rest =>
      match input_shape (attributes (operation node)) with
      | [] => Some node
      | _ :: _ => first_unshaped rest
      end
  end.

(** [match_node(ir_model, torch_node, prefix='')] *)
Definition match_node (ir_model : Model) (torch_node : TraceNode)
    (prefix : string) : result (option Node) :=
  last_scope ← getitem (split "/" (scopeName torch_node)) (-1);
  let scope_names := drop 1 (split "." last_scope) in
  full_name ← get_full_name_by_scope_name ir_model scope_names prefix;
  match graphs ir_model !! full_name with
  | Some graph =>
      mret (first_unshaped (get_nodes_by_type graph (kind torch_node)))
  | None =>
      mret (get_node_by_name ir_model full_name)
  end.

(** [_without_shape_info(node)] *)
Definition _without_shape_info (node : Node) : bool :=
  match input_shape (attributes (operation node)),
        output_shape (attributes (operation node)) with
  | [], [] => true
  | _, _ => false
  end.

(** ** Specification-level counterparts *)

(** Iterating plain [build_full_name] over the segments, starting from
    the prefix. *)
Definition iterate_build_full_name (prefix : string)
    (scope_names : list string) : string :=
  fold_left (λ full_name segment,
               build_full_name full_name (NameStr segment) VNone)
            scope_names prefix.

(** One iteration of the loop of [get_full_name_by_scope_name] on a
    given segment: the loop body run on the one-segment sequence. *)
Definition resolve_segment (ir_model : Model) (full_name segment : string)
  : result string :=
  next_full_name ir_model [segment] full_name 0.

(** The names under which the loop of [get_full_name_by_scope_name]
    looks up a node, in order: one per iteration that is reached. *)
Fixpoint lookups_from (ir_model : Model) (scope_names : list string)
    (indices : list Z) (full_name : string) : list string :=
  match indices with
  | [] => []
  | last_scope :: rest =>
      full_name ::
      match next_full_name ir_model scope_names full_name last_scope with
      | Ok full_name' => lookups_from ir_model scope_names rest full_name'
      | Raise _ => []
      end
  end.

Definition looked_up_names (ir_model : Model) (scope_names : list string)
    (prefix : string) : list string :=
  lookups_from ir_model scope_names (range (length scope_names)) prefix.

(** The full name that [match_node] resolves for a trace record: its
    first two statements. *)
Definition resolved_full_name (ir_model : Model) (torch_node : TraceNode)
    (prefix : string) : result string :=
  last_scope ← getitem (split "/" (scopeName torch_node)) (-1);
  get_full_name_by_scope_name ir_model (drop 1 (split "." last_scope)) prefix.

(** The shapes the filter of the extractor keeps: those of the values
    of tensor type, when the shape is not empty. *)
Definition is_tensor (v : Value) : bool :=
  bool_decide (type_kind (type v) = "TensorType").

Definition tensor_shapes (vs : list Value) : list pyshape :=
  filter (λ s, truthy s = true)
         ((λ v, tensor_sizes (type v))
            <$> filter (λ v, is_tensor v = true) vs).

(** A node is unshaped and of the given kind. *)
Definition unshaped_of_kind (operation_type : string) (n : Node) : Prop :=
  op_type (operation n) = operation_type
  ∧ input_shape (attributes (operation n)) = [].

#[global] Instance unshaped_of_kind_dec k n : Decision (unshaped_of_kind k n).
Proof. unfold unshaped_of_kind. apply _. Defined.

(** ** Sample models and trace records *)

Module Samples.

Definition no_shapes : Attributes :=
  {| input_shape := []; output_shape := [] |}.

Definition param_node : TraceNode :=
  mkTraceNode "prim::Param" "" [] [].

Definition tensor (s : shape) : Value :=
  mkValue (mkTorchType "TensorType" (Some s)) VNone param_node.

Definition int_const (z : Z) : Value :=
  mkValue (mkTorchType "IntType" None) (VInt z)
          (mkTraceNode "prim::Constant" "" [] []).

(** Sub-graph [net] with two [aten::relu] nodes, the first one
    unshaped. *)
Definition n1 : Node :=
  mkNode "n1" (mkOperation Generic "aten::relu" ∅ no_shapes).
Definition n2 : Node :=
  mkNode "n2" (mkOperation Generic "aten::relu" ∅
                 {| input_shape := [Some [1; 3; 8; 8]];
                    output_shape := [Some [1; 3; 8; 8]] |}).
Definition relu_model : Model :=
  mkModel {[ "net" := mkGraph [n2; n1; n2] ]}.
Definition relu_model_spec : Model :=
  mkModel {[ "net" := mkGraph [n1; n2] ]}.
Definition relu_record : TraceNode :=
  mkTraceNode "aten::relu" "Net" [tensor [1; 3; 8; 8]] [tensor [1; 3; 8; 8]].

(** A model whose root graph holds a convolution module named
    [_model__conv1], and the traced convolution of that module. *)
Definition conv1 : Node :=
  mkNode "_model__conv1"
         (mkOperation Generic "__torch__.torch.nn.modules.conv.Conv2d"
                      {[ "in_channels" := VInt 3 ]} no_shapes).
Definition conv_model : Model :=
  mkModel {[ "_model" := mkGraph [conv1] ]}.
Definition conv_record : TraceNode :=
  mkTraceNode "aten::_convolution" "__module.conv1"
              [tensor [1; 3; 8; 8]; tensor [16; 3; 3; 3]; int_const 1]
              [tensor [1; 16; 6; 6]].

(** A model with a layer choice named [_model__lc] labelled
    [mylabel]. *)
Definition lc : Node :=
  mkNode "_model__lc"
         (mkOperation Cell "_cell"
                      {[ "mutation" := VStr "layerchoice";
                         "label" := VStr "mylabel" ]} no_shapes).
Definition lc_model : Model :=
  mkModel {[ "_model" := mkGraph [conv1; lc] ]}.

(** A layer choice that carries no label. *)
Definition lc_unlabelled : Node :=
  mkNode "_model"
         (mkOperation Cell "_cell"
                      {[ "mutation" := VStr "layerchoice" ]} no_shapes).
Definition unlabelled_model : Model :=
  mkModel {[ "root" := mkGraph [lc_unlabelled] ]}.

(** The concatenation of two tensors of shapes [1,3] and [1,4] along
    dimension 1: the first input is the list built from them. *)
Definition list_construct : TraceNode :=
  mkTraceNode "prim::ListConstruct" "Net"
              [tensor [1; 3]; tensor [1; 4]] [].
Definition tensor_list : Value :=
  mkValue (mkTorchType "ListType" None) VNone list_construct.
Definition cat_record : TraceNode :=
  mkTraceNode "aten::cat" "Net" [tensor_list; int_const 1] [tensor [1; 7]].

(** The concatenation of the pieces of a tensor: the first input is
    the list that [aten::split] returns, and the inputs of that
    operation are a tensor and two integers. *)
Definition split_node : TraceNode :=
  mkTraceNode "aten::split" "Net"
              [tensor [4; 3]; int_const 2; int_const 0] [].
Definition split_list : Value :=
  mkValue (mkTorchType "ListType" None) VNone split_node.
Definition cat_split_record : TraceNode :=
  mkTraceNode "aten::cat" "Net" [split_list; int_const 0] [tensor [4; 3]].

(** A concatenation record with one input only. *)
Definition cat_short_record : TraceNode :=
  mkTraceNode "aten::cat" "Net" [tensor_list] [tensor [1; 7]].

(** A record with a scalar (zero-rank) tensor input, an input of
    unknown shape and an integer input. *)
Definition add_record : TraceNode :=
  mkTraceNode "aten::add" "Net"
              [tensor [2; 5]; tensor [];
               mkValue (mkTorchType "TensorType" None) VNone param_node;
               int_const 1]
              [tensor [2; 5]].

End Samples.

(** ** Notions used by the further properties *)

(** The names the resolver looks up, followed along the segments
    themselves. *)
Fixpoint lookups_along (ir_model : Model) (scope_names : list string)
    (full_name : string) : list string :=
  match scope_names with
  | [] => []
  | segment :: rest =>
      full_name ::
      match resolve_segment ir_model full_name segment with
      | Ok full_name' => lookups_along ir_model rest full_name'
      | Raise _ => []
      end
  end.

(** The node looked up under a name is a layer choice that carries no
    label. *)
Definition unlabelled_layerchoice (ir_model : Model) (full_name : string)
  : bool :=
  match get_node_by_name ir_model full_name with
  | Some n =>
      is_layerchoice_node (Some n)
      && bool_decide (parameters (operation n) !! "label" = None)
  | None => false
  end.

(** Every layer-choice node of the model carries a label. *)
Definition labelled (ir_model : Model) : Prop :=
  Forall (λ n, is_layerchoice_node (Some n) = true →
               is_Some (parameters (operation n) !! "label"))
         (all_nodes ir_model).

(** A trace record with the given kind and scope path. *)
Definition record_at (operation_kind scope_path : string) : TraceNode :=
  mkTraceNode operation_kind scope_path [] [].

(** * Properties *)

(** ** Python built-ins *)

Section Builtins.
Context {A : Type}.
Implicit Types (l : list A) (i : nat).

Lemma getitem_nat l i :
  getitem l (Z.of_nat i)
  = match l !! i with Some x => Ok x | None => Raise IndexError end.
Proof.
  unfold getitem.
  assert ((Z.of_nat i <? 0) = false) as Hi by (apply Z.ltb_ge; lia).
  rewrite !Hi.
  by rewrite Nat2Z.id.
Qed.

Lemma getitem_lookup l i x : l !! i = Some x → getitem l (Z.of_nat i) = Ok x.
Proof. intros H. by rewrite getitem_nat, H. Qed.

Lemma getitem_head x l : getitem (x :: l) 0 = Ok x.
Proof. reflexivity. Qed.

Lemma getitem_last l x : getitem (l ++ [x]) (-1) = Ok x.
Proof.
  unfold getitem. change (-1 <? 0) with true. cbv iota zeta.
  rewrite length_app. simpl.
  assert ((-1 + Z.of_nat (length l + 1) <? 0) = false) as ->
    by (apply Z.ltb_ge; lia).
  replace (Z.to_nat (-1 + Z.of_nat (length l + 1))) with (length l) by lia.
  by rewrite list_lookup_middle.
Qed.

Lemma getitem_minus_one_nonempty l :
  l ≠ [] → ∃ x, getitem l (-1) = Ok x ∧ last l = Some x.
Proof.
  intros Hne. destruct (exists_last Hne) as (l' & x & ->).
  exists x. split; [apply getitem_last|apply last_snoc].
Qed.

End Builtins.

Lemma for_each_app {S A} (body : S → A → result S) (l1 l2 : list A) (s : S) :
  for_each body (l1 ++ l2) s = (s' ← for_each body l1 s; for_each body l2 s').
Proof.
  revert s. induction l1 as [|x l1 IH]; intros s; simpl; [done|].
  destruct (body s x) as [s'|e]; simpl; [apply IH|done].
Qed.

Lemma split_nonempty (sep : ascii) (s : string) : split sep s ≠ [].
Proof.
  destruct s as [|c s]; simpl; [done|].
  destruct (Ascii.eqb c sep); [done|]. by destruct (split sep s).
Qed.

Lemma split_no_separator (sep : ascii) (s : string) :
  occurs sep s = false → split sep s = [s].
Proof.
  induction s as [|c s IH]; simpl; [done|].
  destruct (Ascii.eqb c sep); simpl; [done|].
  intros H. by rewrite IH.
Qed.

Example split_samples :
  split "/" "" = [""]
  ∧ split "/" "a/b.c/" = ["a"; "b.c"; ""]
  ∧ split "." "__module.conv1" = ["__module"; "conv1"].
Proof. by repeat split. Qed.

(** ** Name composition *)

Lemma convert_name_no_dot (name : string) :
  occurs "." name = false → _convert_name name = name.
Proof.
  unfold _convert_name. induction name as [|c name IH]; simpl; [done|].
  destruct (Ascii.eqb c "."); simpl; [done|].
  intros H. by rewrite IH.
Qed.

Example build_full_name_ab :
  build_full_name "a" (NameStr "b") VNone = "a__b".
Proof. reflexivity. Qed.

Example build_full_name_ab2 :
  build_full_name "a" (NameStr "b") (VInt 2) = "a__b2".
Proof. vm_compute. reflexivity. Qed.

Example build_cand_name_conv :
  build_cand_name "conv" (VStr "mylabel") = "layerchoice_mylabel_conv".
Proof. reflexivity. Qed.

Example convert_name_abc : _convert_name "a.b.c" = "a__b__c".
Proof. reflexivity. Qed.

(** C9: [build_full_name(prefix, name)] is [prefix], two underscores and
    [name]; with a sequence number, [str(seq)] follows the name with no
    separator; a name given as a list of identifiers is first joined
    with two underscores, so that [build_full_name('a', ['x','y'])] is
    ["a__x__y"]. *)
Theorem build_full_name_format (prefix name : string) :
  build_full_name prefix (NameStr name) VNone = prefix +:+ "__" +:+ name
  ∧ (∀ seq, seq ≠ VNone →
       build_full_name prefix (NameStr name) seq
       = prefix +:+ "__" +:+ name +:+ str seq)
  ∧ (∀ names seq,
       build_full_name prefix (NameList names) seq
       = build_full_name prefix (NameStr (join "__" names)) seq)
  ∧ (∀ x y rest,
       join "__" (x :: y :: rest) = x +:+ "__" +:+ join "__" (y :: rest))
  ∧ build_full_name "a" (NameList ["x"; "y"]) VNone = "a__x__y".
Proof.
  split; [reflexivity|]. split.
  - intros seq Hseq. destruct seq; [congruence|reflexivity..].
  - repeat split.
Qed.

Lemma build_full_name_format_witness :
  VInt 2 ≠ VNone
  ∧ build_full_name "a" (NameStr "b") (VInt 2) = "a" +:+ "__" +:+ "b" +:+ "2".
Proof.
  split; [discriminate|].
  apply (proj1 (proj2 (build_full_name_format "a" "b")) (VInt 2)).
  discriminate.
Defined.

(** ** Layer-choice detection *)

(** C8: [is_layerchoice_node] is true exactly for a present node whose
    operation is a [Cell] with [parameters['mutation'] == 'layerchoice'];
    it is false for an absent node, for an operation that is not a
    [Cell], for parameters without the key [mutation] and for another
    mutation kind. The function is total: none of these cases raises. *)
Theorem is_layerchoice_node_iff (ir_node : option Node) :
  (is_layerchoice_node ir_node = true
   ↔ ∃ n, ir_node = Some n
          ∧ op_variant (operation n) = Cell
          ∧ parameters (operation n) !! "mutation" = Some (VStr "layerchoice"))
  ∧ is_layerchoice_node None = false
  ∧ (∀ n, op_variant (operation n) ≠ Cell →
          is_layerchoice_node (Some n) = false)
  ∧ (∀ n, parameters (operation n) !! "mutation" = None →
          is_layerchoice_node (Some n) = false)
  ∧ (∀ n v, parameters (operation n) !! "mutation" = Some v →
            v ≠ VStr "layerchoice" →
            is_layerchoice_node (Some n) = false).
Proof.
  assert (∀ n, is_layerchoice_node (Some n) = true
               ↔ op_variant (operation n) = Cell
                 ∧ parameters (operation n) !! "mutation"
                   = Some (VStr "layerchoice")) as Hsome.
  { intros n. unfold is_layerchoice_node, is_Cell, get.
    rewrite andb_true_iff, !bool_decide_eq_true.
    destruct (parameters (operation n) !! "mutation") as [v|]; simpl.
    - split; intros [Hc Hv]; (split; [exact Hc|congruence]).
    - split; intros [Hc Hv]; discriminate. }
  split; [|split; [done|repeat split]].
  - destruct ir_node as [n|].
    + rewrite Hsome. split.
      * intros H. exists n. by split.
      * intros (n' & [= <-] & H). exact H.
    + split; [discriminate|]. by intros (n & Hn & _).
  - intros n Hn. apply not_true_is_false. rewrite Hsome. tauto.
  - intros n Hn. apply not_true_is_false. rewrite Hsome, Hn.
    intros [_ ?]. discriminate.
  - intros n v Hn Hv. apply not_true_is_false. rewrite Hsome, Hn.
    intros [_ ?]. congruence.
Qed.

Lemma is_layerchoice_node_iff_witness :
  is_layerchoice_node (Some Samples.lc) = true
  ∧ is_layerchoice_node (Some Samples.conv1) = false
  ∧ is_layerchoice_node
      (Some (mkNode "c" (mkOperation Cell "_cell" ∅ Samples.no_shapes)))
    = false
  ∧ is_layerchoice_node
      (Some (mkNode "c" (mkOperation Cell "_cell"
                           {[ "mutation" := VStr "inputchoice" ]}
                           Samples.no_shapes)))
    = false.
Proof.
  pose proof (is_layerchoice_node_iff (Some Samples.lc))
    as (Hiff & _ & Hvariant & Hmissing & Hother).
  split; [|split; [|split]].
  - apply Hiff. exists Samples.lc. by vm_compute.
  - apply Hvariant. by vm_compute.
  - apply Hmissing. by vm_compute.
  - apply (Hother _ (VStr "inputchoice")); by vm_compute.
Defined.

(** ** Scope resolution *)

Section Resolver.
Variable ir_model : Model.
Implicit Types (scope_names : list string) (full_name segment : string).

Lemma next_full_name_at scope_names i segment full_name :
  scope_names !! i = Some segment →
  next_full_name ir_model scope_names full_name (Z.of_nat i)
  = resolve_segment ir_model full_name segment.
Proof.
  intros Hi. unfold resolve_segment, next_full_name.
  rewrite (getitem_lookup _ _ _ Hi).
  by rewrite getitem_head.
Qed.

Lemma for_each_range_from (seen todo : list string) full_name :
  for_each (next_full_name ir_model (seen ++ todo))
           (Z.of_nat <$> seq (length seen) (length todo)) full_name
  = for_each (resolve_segment ir_model) todo full_name.
Proof.
  revert seen full_name.
  induction todo as [|segment todo IH]; intros seen full_name; [done|].
  simpl. rewrite (next_full_name_at _ _ segment)
    by apply list_lookup_middle, eq_refl.
  destruct (resolve_segment ir_model full_name segment) as [fn|e];
    simpl; [|done].
  specialize (IH (seen ++ [segment]) fn).
  rewrite <- app_assoc, length_app in IH. simpl in IH.
  by rewrite Nat.add_1_r in IH.
Qed.

(** The loop over indices is the loop over the segments themselves. *)
Lemma get_full_name_by_scope_name_segments scope_names prefix :
  get_full_name_by_scope_name ir_model scope_names prefix
  = for_each (resolve_segment ir_model) scope_names prefix.
Proof. apply (for_each_range_from [] scope_names). Qed.

Lemma get_full_name_by_scope_name_snoc scope_names segment prefix :
  get_full_name_by_scope_name ir_model (scope_names ++ [segment]) prefix
  = (full_name ← get_full_name_by_scope_name ir_model scope_names prefix;
     resolve_segment ir_model full_name segment).
Proof.
  rewrite !get_full_name_by_scope_name_segments, for_each_app.
  destruct (for_each _ scope_names prefix) as [fn|e]; simpl; [|done].
  by destruct (resolve_segment ir_model fn segment).
Qed.

Lemma lookups_range_from (seen todo : list string) full_name :
  lookups_from ir_model (seen ++ todo)
               (Z.of_nat <$> seq (length seen) (length todo)) full_name
  = match todo with
    | [] => []
    | segment :: rest =>
        full_name ::
        match resolve_segment ir_model full_name segment with
        | Ok fn =>
            lookups_from ir_model ((seen ++ [segment]) ++ rest)
              (Z.of_nat <$> seq (length (seen ++ [segment])) (length rest))
              fn
        | Raise _ => []
        end
    end.
Proof.
  destruct todo as [|segment rest]; [done|].
  simpl. rewrite (next_full_name_at _ _ segment)
    by apply list_lookup_middle, eq_refl.
  rewrite <- app_assoc, length_app. simpl. by rewrite Nat.add_1_r.
Qed.

(** What one iteration does when the node looked up is not a layer
    choice, and when it is one. *)
Lemma resolve_segment_plain full_name segment :
  is_layerchoice_node (get_node_by_name ir_model full_name) = false →
  resolve_segment ir_model full_name segment
  = Ok (build_full_name full_name (NameStr segment) VNone).
Proof.
  intros Hlc. unfold resolve_segment, next_full_name. rewrite Hlc.
  by rewrite getitem_head.
Qed.

Lemma resolve_segment_layerchoice full_name segment n label :
  get_node_by_name ir_model full_name = Some n →
  is_layerchoice_node (Some n) = true →
  parameters (operation n) !! "label" = Some label →
  resolve_segment ir_model full_name segment
  = Ok (build_cand_name segment label).
Proof.
  intros Hn Hlc Hlabel. unfold resolve_segment, next_full_name.
  rewrite Hn, Hlc. unfold getkey. by rewrite Hlabel.
Qed.

(** The result depends on the model only through the lookups listed
    by [looked_up_names]. *)
Lemma next_full_name_lookup (other : Model) scope_names full_name i :
  get_node_by_name other full_name = get_node_by_name ir_model full_name →
  next_full_name other scope_names full_name i
  = next_full_name ir_model scope_names full_name i.
Proof. intros H. unfold next_full_name. by rewrite H. Qed.

Lemma for_each_same_lookups (other : Model) scope_names indices full_name :
  (∀ fn, fn ∈ lookups_from ir_model scope_names indices full_name →
         get_node_by_name other fn = get_node_by_name ir_model fn) →
  for_each (next_full_name other scope_names) indices full_name
  = for_each (next_full_name ir_model scope_names) indices full_name.
Proof.
  revert full_name.
  induction indices as [|i indices IH]; intros full_name Hagree; [done|].
  simpl in *.
  rewrite (next_full_name_lookup other) by (apply Hagree; left).
  destruct (next_full_name ir_model scope_names full_name i) as [fn|e];
    simpl; [|done].
  apply IH. intros fn' Hfn'. apply Hagree. by right.
Qed.

Lemma get_full_name_by_scope_name_same_lookups (other : Model)
    scope_names prefix :
  (∀ fn, fn ∈ looked_up_names ir_model scope_names prefix →
         get_node_by_name other fn = get_node_by_name ir_model fn) →
  get_full_name_by_scope_name other scope_names prefix
  = get_full_name_by_scope_name ir_model scope_names prefix.
Proof. apply for_each_same_lookups. Qed.

Lemma plain_resolution_from (seen todo : list string) full_name :
  Forall (λ fn, is_layerchoice_node (get_node_by_name ir_model fn) = false)
         (lookups_from ir_model (seen ++ todo)
            (Z.of_nat <$> seq (length seen) (length todo)) full_name) →
  for_each (resolve_segment ir_model) todo full_name
  = Ok (iterate_build_full_name full_name todo).
Proof.
  revert seen full_name.
  induction todo as [|segment todo IH]; intros seen full_name; [done|].
  rewrite lookups_range_from. intros Hplain.
  apply Forall_cons in Hplain as [Hhere Hrest].
  simpl. rewrite (resolve_segment_plain _ _ Hhere) in Hrest |- *. simpl.
  by apply (IH (seen ++ [segment])).
Qed.

End Resolver.

(** C4: when no name looked up during the resolution names a
    layer-choice node, [get_full_name_by_scope_name] returns what
    iterating plain [build_full_name] over the segments, starting from
    the prefix, gives. *)
Theorem get_full_name_by_scope_name_plain (ir_model : Model)
    (scope_names : list string) (prefix : string) :
  Forall (λ fn, is_layerchoice_node (get_node_by_name ir_model fn) = false)
         (looked_up_names ir_model scope_names prefix) →
  get_full_name_by_scope_name ir_model scope_names prefix
  = Ok (iterate_build_full_name prefix scope_names).
Proof.
  intros Hplain. rewrite get_full_name_by_scope_name_segments.
  by apply (plain_resolution_from ir_model []).
Qed.

Lemma get_full_name_by_scope_name_plain_witness :
  looked_up_names Samples.conv_model ["conv1"; "weight"] "_model"
  = ["_model"; "_model__conv1"]
  ∧ get_full_name_by_scope_name Samples.conv_model ["conv1"; "weight"] "_model"
    = Ok "_model__conv1__weight".
Proof.
  split; [by vm_compute|].
  apply (get_full_name_by_scope_name_plain
           Samples.conv_model ["conv1"; "weight"] "_model").
  vm_compute. repeat constructor.
Defined.

(** C5: when the node looked up under the name accumulated before
    segment [i] is a layer-choice node with label [L], the full name
    after that segment is ["layerchoice_{L}_{segment}"], whatever the
    prefix and the name accumulated so far: they are dropped, not
    prepended. *)
Theorem layerchoice_segment_discards_prefix (ir_model : Model)
    (scope_names : list string) (i : nat) (segment : string) (label : pyval) :
  scope_names !! i = Some segment →
  ∀ (prefix full_name : string) (n : Node),
    get_full_name_by_scope_name ir_model (take i scope_names) prefix
    = Ok full_name →
    get_node_by_name ir_model full_name = Some n →
    is_layerchoice_node (Some n) = true →
    parameters (operation n) !! "label" = Some label →
    next_full_name ir_model scope_names full_name (Z.of_nat i)
    = Ok ("layerchoice_" +:+ str label +:+ "_" +:+ segment)
    ∧ get_full_name_by_scope_name ir_model (take (S i) scope_names) prefix
      = Ok ("layerchoice_" +:+ str label +:+ "_" +:+ segment).
Proof.
  intros Hi prefix full_name n Hrun Hn Hlc Hlabel.
  pose proof (resolve_segment_layerchoice ir_model full_name segment n label
                Hn Hlc Hlabel) as Hstep.
  split.
  - by rewrite (next_full_name_at _ _ _ segment).
  - rewrite (take_S_r _ _ _ Hi), get_full_name_by_scope_name_snoc, Hrun.
    exact Hstep.
Qed.

Lemma layerchoice_segment_discards_prefix_witness :
  get_full_name_by_scope_name Samples.lc_model ["lc"] "_model"
  = Ok "_model__lc"
  ∧ next_full_name Samples.lc_model ["lc"; "0"] "_model__lc" 1
    = Ok "layerchoice_mylabel_0"
  ∧ get_full_name_by_scope_name Samples.lc_model ["lc"; "0"] "_model"
    = Ok "layerchoice_mylabel_0".
Proof.
  split; [by vm_compute|].
  apply (layerchoice_segment_discards_prefix
           Samples.lc_model ["lc"; "0"] 1 "0" (VStr "mylabel") eq_refl
           "_model" "_model__lc" Samples.lc); by vm_compute.
Defined.

(** C10: on an empty scope-name sequence [get_full_name_by_scope_name]
    returns the prefix unchanged, and looks nothing up in the model. *)
Theorem get_full_name_by_scope_name_nil (ir_model : Model) (prefix : string) :
  get_full_name_by_scope_name ir_model [] prefix = Ok prefix
  ∧ looked_up_names ir_model [] prefix = []
  ∧ ∀ other : Model,
      get_full_name_by_scope_name other [] prefix
      = get_full_name_by_scope_name ir_model [] prefix.
Proof. by repeat split. Qed.

(** ** Trace metadata extraction *)

Section Extractor.
Implicit Types (v : Value) (vs : list Value) (acc : list pyshape).

Lemma sizes_tensor v :
  is_tensor v = true → sizes (type v) = Ok (tensor_sizes (type v)).
Proof. unfold is_tensor, sizes. by intros ->. Qed.

Lemma sizes_not_tensor v :
  is_tensor v = false → sizes (type v) = Raise RuntimeError.
Proof. unfold is_tensor, sizes. by intros ->. Qed.

Lemma sizes_Ok v (s : pyshape) :
  sizes (type v) = Ok s
  ↔ type_kind (type v) = "TensorType" ∧ tensor_sizes (type v) = s.
Proof.
  unfold sizes. case_bool_decide as Hkind.
  - split; [by intros [= <-]|by intros [_ <-]].
  - split; [done|]. by intros [? _].
Qed.

Lemma append_shape_filter acc v :
  append_shape acc v
  = Ok (if is_tensor v && truthy (tensor_sizes (type v))
        then acc ++ [tensor_sizes (type v)] else acc).
Proof.
  unfold append_shape, is_tensor, sizes.
  destruct (bool_decide (type_kind (type v) = "TensorType")); [|done].
  simpl. by destruct (truthy (tensor_sizes (type v))).
Qed.

Lemma tensor_shapes_cons v vs :
  tensor_shapes (v :: vs)
  = if is_tensor v && truthy (tensor_sizes (type v))
    then tensor_sizes (type v) :: tensor_shapes vs else tensor_shapes vs.
Proof.
  unfold tensor_shapes. rewrite filter_cons.
  destruct (decide (is_tensor v = true)) as [->|Hv]; simpl.
  - rewrite filter_cons.
    destruct (decide (truthy (tensor_sizes (type v)) = true)) as [->|Hs];
      [done|].
    by apply not_true_is_false in Hs as ->.
  - by apply not_true_is_false in Hv as ->.
Qed.

(** The loop that appends to an initially empty list never raises and
    computes the filtered list of shapes. *)
Lemma for_each_append_shape vs acc :
  for_each append_shape vs acc = Ok (acc ++ tensor_shapes vs).
Proof.
  revert acc. induction vs as [|v vs IH]; intros acc; simpl.
  - by rewrite app_nil_r.
  - rewrite append_shape_filter. simpl. rewrite IH, tensor_shapes_cons.
    destruct (is_tensor v && truthy (tensor_sizes (type v))); [|done].
    by rewrite <- app_assoc.
Qed.

Lemma elem_of_tensor_shapes (s : pyshape) vs :
  s ∈ tensor_shapes vs
  ↔ ∃ v, v ∈ vs ∧ type_kind (type v) = "TensorType"
         ∧ sizes (type v) = Ok s ∧ truthy s = true.
Proof.
  unfold tensor_shapes.
  rewrite list_elem_of_filter, list_elem_of_fmap. split.
  - intros (Hs & v & -> & Hv). apply list_elem_of_filter in Hv as [Ht Hv].
    exists v. split; [done|]. split; [by apply bool_decide_eq_true in Ht|].
    split; [by apply sizes_tensor|done].
  - intros (v & Hv & Ht & Hsizes & Hs).
    apply sizes_Ok in Hsizes as [_ <-]. split; [done|].
    exists v. split; [done|]. apply list_elem_of_filter. split; [|done].
    by apply bool_decide_eq_true.
Qed.

Lemma tensor_shapes_no_empty_entry vs :
  (Some [] ∉ tensor_shapes vs) ∧ (None ∉ tensor_shapes vs).
Proof.
  split; intros H; apply elem_of_tensor_shapes in H as (v & _ & _ & _ & H);
    discriminate.
Qed.

(** The comprehension over the inputs of the producing node: it returns
    when all of them are of tensor type, and raises at the first one
    that is not. *)
Lemma comprehension_sizes_tensors vs :
  Forall (λ v, is_tensor v = true) vs →
  comprehension (λ input, sizes (type input)) vs
  = Ok ((λ input, tensor_sizes (type input)) <$> vs).
Proof.
  induction 1 as [|v vs Hv _ IH]; simpl; [done|].
  by rewrite (sizes_tensor v Hv), IH.
Qed.

Lemma comprehension_sizes_other vs :
  Exists (λ v, is_tensor v = false) vs →
  comprehension (λ input, sizes (type input)) vs = Raise RuntimeError.
Proof.
  induction vs as [|v vs IH]; intros Hother; [by apply Exists_nil in Hother|].
  simpl. destruct (is_tensor v) eqn:Hv.
  - rewrite (sizes_tensor v Hv). simpl. rewrite IH; [done|].
    apply Exists_cons in Hother as [Hhere|Hlater]; [congruence|done].
  - by rewrite (sizes_not_tensor v Hv).
Qed.

Lemma extract_not_cat (trace_node : TraceNode) :
  kind trace_node ≠ "aten::cat" →
  _extract_info_from_trace_node trace_node
  = Ok ({| sp_input_shape := tensor_shapes (inputs trace_node);
           sp_output_shape := tensor_shapes (outputs trace_node) |}, None).
Proof.
  intros Hkind. unfold _extract_info_from_trace_node.
  rewrite (bool_decide_eq_false_2 _ Hkind).
  by rewrite !for_each_append_shape.
Qed.

Lemma extract_cat_two_inputs (trace_node : TraceNode) first second rest :
  kind trace_node = "aten::cat" →
  inputs trace_node = first :: second :: rest →
  Forall (λ v, is_tensor v = true) (inputs (node first)) →
  _extract_info_from_trace_node trace_node
  = Ok ({| sp_input_shape :=
             (λ input, tensor_sizes (type input)) <$> inputs (node first);
           sp_output_shape := tensor_shapes (outputs trace_node) |},
        Some {[ "dim" := toIValue second ]}).
Proof.
  intros Hkind Hinputs Htensors. unfold _extract_info_from_trace_node.
  rewrite (bool_decide_eq_true_2 _ Hkind), Hinputs, getitem_head. simpl.
  rewrite (comprehension_sizes_tensors _ Htensors). simpl.
  by rewrite for_each_append_shape.
Qed.

(** The failures of the extractor on a concatenation record: no input
    at all, an input of the producing node that is not a tensor, and no
    second input. *)
Lemma extract_cat_no_input (trace_node : TraceNode) :
  kind trace_node = "aten::cat" →
  inputs trace_node = [] →
  _extract_info_from_trace_node trace_node = Raise IndexError.
Proof.
  intros Hkind Hinputs. unfold _extract_info_from_trace_node.
  by rewrite (bool_decide_eq_true_2 _ Hkind), Hinputs.
Qed.

Lemma extract_cat_not_tensor (trace_node : TraceNode) first rest :
  kind trace_node = "aten::cat" →
  inputs trace_node = first :: rest →
  Exists (λ v, is_tensor v = false) (inputs (node first)) →
  _extract_info_from_trace_node trace_node = Raise RuntimeError.
Proof.
  intros Hkind Hinputs Hother. unfold _extract_info_from_trace_node.
  rewrite (bool_decide_eq_true_2 _ Hkind), Hinputs, getitem_head. simpl.
  by rewrite (comprehension_sizes_other _ Hother).
Qed.

Lemma extract_cat_one_input (trace_node : TraceNode) first :
  kind trace_node = "aten::cat" →
  inputs trace_node = [first] →
  Forall (λ v, is_tensor v = true) (inputs (node first)) →
  _extract_info_from_trace_node trace_node = Raise IndexError.
Proof.
  intros Hkind Hinputs Htensors. unfold _extract_info_from_trace_node.
  rewrite (bool_decide_eq_true_2 _ Hkind), Hinputs, getitem_head. simpl.
  rewrite (comprehension_sizes_tensors _ Htensors). simpl.
  by rewrite for_each_append_shape.
Qed.
End Extractor.

(** A concatenation of the list that [aten::split] returns makes the
    extractor raise, since an input of the producing node is an integer
    and has no sizes; so does a concatenation record with one input. No
    [input_shape] is returned for either. *)
Lemma extract_concatenation_counterexample :
  kind Samples.cat_split_record = "aten::cat"
  ∧ length (inputs Samples.cat_split_record) = 2%nat
  ∧ _extract_info_from_trace_node Samples.cat_split_record
    = Raise RuntimeError
  ∧ _extract_info_from_trace_node Samples.cat_short_record
    = Raise IndexError
  ∧ ¬ (∀ trace_node : TraceNode,
         kind trace_node = "aten::cat" →
         ∃ shape_parameters parameters,
           _extract_info_from_trace_node trace_node
           = Ok (shape_parameters, parameters)).
Proof.
  assert (_extract_info_from_trace_node Samples.cat_split_record
          = Raise RuntimeError) as Hraise by (by vm_compute).
  split; [reflexivity|]. split; [reflexivity|]. split; [exact Hraise|].
  split; [by vm_compute|].
  intros Hclaim.
  destruct (Hclaim Samples.cat_split_record eq_refl) as (sp & extra & Hok).
  rewrite Hraise in Hok. discriminate.
Qed.

(** C3 (amended): for a concatenation record that has a first and a
    second direct input, and whose first input is produced by a node
    with inputs of tensor type only, [input_shape] lists the sizes of
    every input of that producing node, unfiltered, and the extra
    parameters are [{'dim': v}] with [v] the constant of the second
    direct input; for any other kind the extra parameters are [None]. *)
Theorem extract_concatenation (trace_node : TraceNode) :
  (kind trace_node = "aten::cat" →
   ∀ first second rest,
     inputs trace_node = first :: second :: rest →
     Forall (λ v, is_tensor v = true) (inputs (node first)) →
     _extract_info_from_trace_node trace_node
     = Ok ({| sp_input_shape :=
                (λ input, tensor_sizes (type input)) <$> inputs (node first);
              sp_output_shape := tensor_shapes (outputs trace_node) |},
           Some {[ "dim" := toIValue second ]})
     ∧ Forall (λ input, sizes (type input) = Ok (tensor_sizes (type input)))
              (inputs (node first)))
  ∧ (kind trace_node ≠ "aten::cat" →
     ∃ shape_parameters,
       _extract_info_from_trace_node trace_node
       = Ok (shape_parameters, None)).
Proof.
  split.
  - intros Hkind first second rest Hinputs Htensors. split.
    + by apply (extract_cat_two_inputs _ first second rest).
    + eapply Forall_impl; [exact Htensors|]. intros v. apply sizes_tensor.
  - intros Hkind. eexists. by apply extract_not_cat.
Qed.

Lemma extract_concatenation_witness :
  kind Samples.cat_record = "aten::cat"
  ∧ Forall (λ v, is_tensor v = true) (inputs (node Samples.tensor_list))
  ∧ _extract_info_from_trace_node Samples.cat_record
    = Ok ({| sp_input_shape := [Some [1; 3]; Some [1; 4]];
             sp_output_shape := tensor_shapes (outputs Samples.cat_record) |},
          Some {[ "dim" := VInt 1 ]}).
Proof.
  assert (Forall (λ v, is_tensor v = true) (inputs (node Samples.tensor_list)))
    as Htensors by (by repeat constructor).
  split; [reflexivity|]. split; [exact Htensors|].
  apply (proj1 (extract_concatenation Samples.cat_record) eq_refl
           Samples.tensor_list (Samples.int_const 1) [] eq_refl Htensors).
Defined.

Example extract_cat_not_direct_inputs :
  tensor_shapes (inputs Samples.cat_record) = []
  ∧ ∃ parameters,
      _extract_info_from_trace_node Samples.cat_record
      = Ok ({| sp_input_shape := [Some [1; 3]; Some [1; 4]];
               sp_output_shape := [Some [1; 7]] |}, parameters).
Proof. split; [by vm_compute|]. eexists. by vm_compute. Qed.

(** C7: for a record that is not a concatenation, the shape of a direct
    input is appended to [input_shape] exactly when its type is a tensor
    type and the shape is not empty, and the outputs go through the same
    filter into [output_shape]; values of another type and empty or
    unknown shapes leave no entry at all. *)
Theorem extract_filters_shapes (trace_node : TraceNode) :
  kind trace_node ≠ "aten::cat" →
  _extract_info_from_trace_node trace_node
  = Ok ({| sp_input_shape := tensor_shapes (inputs trace_node);
           sp_output_shape := tensor_shapes (outputs trace_node) |}, None)
  ∧ (∀ acc v,
       append_shape acc v
       = Ok (if is_tensor v && truthy (tensor_sizes (type v))
             then acc ++ [tensor_sizes (type v)] else acc))
  ∧ (∀ s vs,
       s ∈ tensor_shapes vs
       ↔ ∃ v, v ∈ vs ∧ type_kind (type v) = "TensorType"
              ∧ sizes (type v) = Ok s ∧ truthy s = true)
  ∧ (∀ vs, (Some [] ∉ tensor_shapes vs) ∧ (None ∉ tensor_shapes vs)).
Proof.
  intros Hkind. split; [by apply extract_not_cat|]. split; [|split].
  - apply append_shape_filter.
  - apply elem_of_tensor_shapes.
  - apply tensor_shapes_no_empty_entry.
Qed.

Lemma extract_filters_shapes_witness :
  kind Samples.add_record ≠ "aten::cat"
  ∧ length (inputs Samples.add_record) = 4%nat
  ∧ _extract_info_from_trace_node Samples.add_record
    = Ok ({| sp_input_shape := [Some [2; 5]];
             sp_output_shape := [Some [2; 5]] |}, None).
Proof.
  split; [discriminate|]. split; [reflexivity|].
  apply (proj1 (extract_filters_shapes Samples.add_record
                  ltac:(discriminate))).
Defined.

(** ** Node matching *)

Section Matcher.
Variable ir_model : Model.
Implicit Types (torch_node : TraceNode) (prefix full_name : string) (n : Node).

Lemma match_node_resolved torch_node prefix :
  match_node ir_model torch_node prefix
  = (full_name ← resolved_full_name ir_model torch_node prefix;
     match graphs ir_model !! full_name with
     | Some graph =>
         Ok (first_unshaped (get_nodes_by_type graph (kind torch_node)))
     | None => Ok (get_node_by_name ir_model full_name)
     end).
Proof.
  unfold match_node, resolved_full_name.
  destruct (getitem (split "/" (scopeName torch_node)) (-1)) as [last|e];
    simpl; [|done].
  by destruct (get_full_name_by_scope_name _ _ _).
Qed.

Lemma get_node_by_name_Some node_name n :
  get_node_by_name ir_model node_name = Some n →
  name n = node_name
  ∧ ∃ graph_name graph,
      graphs ir_model !! graph_name = Some graph ∧ n ∈ nodes graph.
Proof.
  unfold get_node_by_name, all_nodes. intros Hhead.
  apply head_Some_elem_of, list_elem_of_filter in Hhead as [Hname Hin].
  split; [done|].
  apply list_elem_of_bind in Hin as (graph & Hn & Hgraph).
  apply list_elem_of_fmap in Hgraph as ([graph_name graph'] & -> & Hgraph).
  apply elem_of_map_to_list in Hgraph. by exists graph_name, graph'.
Qed.

Lemma get_node_by_name_None node_name graph_name graph n :
  get_node_by_name ir_model node_name = None →
  graphs ir_model !! graph_name = Some graph →
  n ∈ nodes graph → name n ≠ node_name.
Proof.
  unfold get_node_by_name, all_nodes. intros Hhead Hgraph Hn Hname.
  apply head_None in Hhead.
  assert (n ∈ filter (λ n, name n = node_name)
                     ((map_to_list (graphs ir_model)).*2 ≫= nodes)) as Hin.
  { apply list_elem_of_filter. split; [done|].
    apply list_elem_of_bind. exists graph. split; [done|].
    apply list_elem_of_fmap. exists (graph_name, graph). split; [done|].
    by apply elem_of_map_to_list. }
  rewrite Hhead in Hin. by apply not_elem_of_nil in Hin.
Qed.

(** The loop over the nodes of the wanted kind returns the first node of
    the graph that is of that kind and unshaped. *)
Lemma first_unshaped_by_type (operation_type : string) (l : list Node) :
  match first_unshaped
          (filter (λ n, op_type (operation n) = operation_type) l) with
  | Some n =>
      ∃ before after,
        l = before ++ n :: after
        ∧ unshaped_of_kind operation_type n
        ∧ Forall (λ n', ¬ unshaped_of_kind operation_type n') before
  | None => Forall (λ n', ¬ unshaped_of_kind operation_type n') l
  end.
Proof.
  induction l as [|x l IH]; [by constructor|].
  rewrite filter_cons.
  destruct (decide (op_type (operation x) = operation_type)) as [Hkind|Hkind].
  - simpl. destruct (input_shape (attributes (operation x))) eqn:Hshape.
    + exists [], l. split; [done|]. split; [by split|constructor].
    + assert (¬ unshaped_of_kind operation_type x) as Hx.
      { intros [_ Hempty]. congruence. }
      destruct (first_unshaped _) as [n|].
      * destruct IH as (before & after & -> & Hn & Hbefore).
        exists (x :: before), after.
        split; [done|]. split; [done|]. by constructor.
      * by constructor.
  - assert (¬ unshaped_of_kind operation_type x) as Hx.
    { by intros [Hk _]. }
    destruct (first_unshaped _) as [n|].
    + destruct IH as (before & after & -> & Hn & Hbefore).
      exists (x :: before), after.
        split; [done|]. split; [done|]. by constructor.
    + by constructor.
Qed.

Lemma first_unshaped_head_filter (operation_type : string) (l : list Node) :
  first_unshaped (filter (λ n, op_type (operation n) = operation_type) l)
  = head (filter (unshaped_of_kind operation_type) l).
Proof.
  induction l as [|x l IH]; [done|].
  rewrite !filter_cons.
  destruct (decide (op_type (operation x) = operation_type)) as [Hkind|Hkind].
  - simpl. destruct (input_shape (attributes (operation x))) eqn:Hshape.
    + by rewrite decide_True.
    + rewrite decide_False; [done|]. intros [_ Hempty]. congruence.
  - rewrite decide_False; [done|]. by intros [Hk _].
Qed.

(** The only exception that resolving and matching can raise is the
    [KeyError] of a layer-choice node without label. *)
Lemma resolve_segment_raises full_name segment e :
  resolve_segment ir_model full_name segment = Raise e → e = KeyError "label".
Proof.
  unfold resolve_segment, next_full_name.
  destruct (get_node_by_name ir_model full_name) as [n|]; simpl.
  - destruct (_ && _); [|done].
    unfold getkey. destruct (parameters (operation n) !! "label"); [done|].
    by intros [= <-].
  - done.
Qed.

Lemma get_full_name_by_scope_name_raises scope_names prefix e :
  get_full_name_by_scope_name ir_model scope_names prefix = Raise e →
  e = KeyError "label".
Proof.
  rewrite get_full_name_by_scope_name_segments. revert prefix.
  induction scope_names as [|segment rest IH]; intros prefix; [done|].
  simpl. destruct (resolve_segment ir_model prefix segment) as [fn|e'] eqn:Hstep.
  - apply IH.
  - intros [= <-]. by apply (resolve_segment_raises prefix segment).
Qed.

Lemma match_node_raises torch_node prefix e :
  match_node ir_model torch_node prefix = Raise e → e = KeyError "label".
Proof.
  unfold match_node.
  destruct (getitem_minus_one_nonempty (split "/" (scopeName torch_node)))
    as (last & -> & _); [apply split_nonempty|].
  simpl.
  destruct (get_full_name_by_scope_name _ _ _) as [fn|e'] eqn:Hrun; simpl.
  - by destruct (graphs ir_model !! fn).
  - intros [= <-]. by apply get_full_name_by_scope_name_raises in Hrun.
Qed.


End Matcher.

(** The convolution module [_model__conv1] is matched by name with the
    traced [aten::_convolution], a record of another kind: the name
    branch of [match_node] does not compare kinds. *)
Lemma match_node_kind_counterexample :
  resolved_full_name Samples.conv_model Samples.conv_record "_model"
  = Ok "_model__conv1"
  ∧ graphs Samples.conv_model !! "_model__conv1" = None
  ∧ match_node Samples.conv_model Samples.conv_record "_model"
    = Ok (Some Samples.conv1)
  ∧ name Samples.conv1 = "_model__conv1"
  ∧ op_type (operation Samples.conv1) ≠ kind Samples.conv_record
  ∧ ¬ (∀ (ir_model : Model) (torch_node : TraceNode) (prefix : string)
         (n : Node),
         match_node ir_model torch_node prefix = Ok (Some n) →
         op_type (operation n) = kind torch_node).
Proof.
  assert (match_node Samples.conv_model Samples.conv_record "_model"
          = Ok (Some Samples.conv1)) as Hmatch by (by vm_compute).
  split; [by vm_compute|]. split; [by vm_compute|].
  split; [exact Hmatch|]. split; [reflexivity|]. split; [discriminate|].
  intros Hclaim. by specialize (Hclaim _ _ _ _ Hmatch).
Qed.

(** C1 (amended): when the resolved full name names a sub-graph,
    [match_node] returns the first unshaped node of the kind of the
    trace record in it, so that a node it returns there is of that kind;
    when the resolved full name names no sub-graph, [match_node] returns
    what [get_node_by_name] gives for that name, the node of the model
    with exactly that name or [None], whatever the kind of the node; when
    the name cannot be resolved, [match_node] raises the same
    exception. *)
Theorem match_node_kind_or_name (ir_model : Model) (torch_node : TraceNode)
    (prefix : string) :
  (∀ full_name,
     resolved_full_name ir_model torch_node prefix = Ok full_name →
     (∀ graph,
        graphs ir_model !! full_name = Some graph →
        ∃ found,
          match_node ir_model torch_node prefix = Ok found
          ∧ found
            = head (filter (unshaped_of_kind (kind torch_node)) (nodes graph))
          ∧ ∀ n, found = Some n →
                 n ∈ nodes graph
                 ∧ op_type (operation n) = kind torch_node
                 ∧ input_shape (attributes (operation n)) = [])
     ∧ (graphs ir_model !! full_name = None →
        match_node ir_model torch_node prefix
        = Ok (get_node_by_name ir_model full_name)
        ∧ ∀ n, get_node_by_name ir_model full_name = Some n →
               name n = full_name))
  ∧ (∀ e,
       resolved_full_name ir_model torch_node prefix = Raise e →
       match_node ir_model torch_node prefix = Raise e)
  ∧ (∀ n,
       match_node ir_model torch_node prefix = Ok (Some n) →
       ∃ full_name,
         resolved_full_name ir_model torch_node prefix = Ok full_name
         ∧ ((∃ graph,
               graphs ir_model !! full_name = Some graph
               ∧ n ∈ nodes graph
               ∧ op_type (operation n) = kind torch_node
               ∧ input_shape (attributes (operation n)) = [])
            ∨ (graphs ir_model !! full_name = None
               ∧ get_node_by_name ir_model full_name = Some n
               ∧ name n = full_name))).
Proof.
  assert (∀ graph n,
            first_unshaped (get_nodes_by_type graph (kind torch_node))
            = Some n →
            n ∈ nodes graph
            ∧ op_type (operation n) = kind torch_node
            ∧ input_shape (attributes (operation n)) = []) as Hfound.
  { intros graph n Hfirst.
    pose proof (first_unshaped_by_type (kind torch_node) (nodes graph))
      as Hspec.
    unfold get_nodes_by_type in Hfirst. rewrite Hfirst in Hspec.
    destruct Hspec as (before & after & -> & [Hkind Hshape] & _).
    split; [|done]. apply elem_of_app. right. by left. }
  rewrite match_node_resolved. split; [|split].
  - intros full_name ->. simpl. split.
    + intros graph ->.
      exists (first_unshaped (get_nodes_by_type graph (kind torch_node))).
      split; [done|]. split; [apply first_unshaped_head_filter|].
      apply Hfound.
    + intros ->. split; [done|].
      intros n Hn. by apply get_node_by_name_Some in Hn as [Hname _].
  - by intros e ->.
  - destruct (resolved_full_name ir_model torch_node prefix)
      as [full_name|e]; simpl; [|done].
    intros n Hmatch. exists full_name. split; [done|].
    destruct (graphs ir_model !! full_name) as [graph|] eqn:Hgraph.
    + left. exists graph. split; [done|].
      injection Hmatch as Hfirst. by apply Hfound.
    + right. injection Hmatch as Hnode. split; [done|]. split; [done|].
      by apply get_node_by_name_Some in Hnode as [Hname _].
Qed.

Lemma match_node_kind_or_name_witness :
  resolved_full_name Samples.conv_model Samples.conv_record "_model"
  = Ok "_model__conv1"
  ∧ graphs Samples.conv_model !! "_model__conv1" = None
  ∧ get_node_by_name Samples.conv_model "_model__conv1"
    = Some Samples.conv1
  ∧ match_node Samples.conv_model Samples.conv_record "_model"
    = Ok (get_node_by_name Samples.conv_model "_model__conv1")
  ∧ name Samples.conv1 = "_model__conv1".
Proof.
  assert (resolved_full_name Samples.conv_model Samples.conv_record "_model"
          = Ok "_model__conv1") as Hname by (by vm_compute).
  assert (graphs Samples.conv_model !! "_model__conv1" = None) as Hgraph
    by (by vm_compute).
  assert (get_node_by_name Samples.conv_model "_model__conv1"
          = Some Samples.conv1) as Hnode by (by vm_compute).
  destruct (match_node_kind_or_name
              Samples.conv_model Samples.conv_record "_model")
    as (Hresolved & _ & _).
  destruct (Hresolved "_model__conv1" Hname) as [_ Hbranch].
  destruct (Hbranch Hgraph) as [Hmatch Hnamed].
  split; [exact Hname|]. split; [exact Hgraph|]. split; [exact Hnode|].
  split; [exact Hmatch|]. exact (Hnamed Samples.conv1 Hnode).
Defined.

(** C2: when the resolved full name names a sub-graph of the model,
    [match_node] returns the first node of that sub-graph, in its node
    order, that is of the kind of the trace record and has an empty
    [input_shape], and returns [None] when the sub-graph has no such
    node; a shaped node of the same kind is never taken in its place. *)
Theorem match_node_first_unshaped (ir_model : Model) (torch_node : TraceNode)
    (prefix full_name : string) (graph : Graph) :
  resolved_full_name ir_model torch_node prefix = Ok full_name →
  graphs ir_model !! full_name = Some graph →
  ∃ found,
    match_node ir_model torch_node prefix = Ok found
    ∧ found = head (filter (unshaped_of_kind (kind torch_node)) (nodes graph))
    ∧ match found with
      | Some n =>
          ∃ before after,
            nodes graph = before ++ n :: after
            ∧ unshaped_of_kind (kind torch_node) n
            ∧ Forall (λ n', ¬ unshaped_of_kind (kind torch_node) n') before
      | None =>
          Forall (λ n', ¬ unshaped_of_kind (kind torch_node) n') (nodes graph)
      end.
Proof.
  intros Hname Hgraph.
  exists (first_unshaped (get_nodes_by_type graph (kind torch_node))).
  split; [|split].
  - by rewrite match_node_resolved, Hname; simpl; rewrite Hgraph.
  - apply first_unshaped_head_filter.
  - apply first_unshaped_by_type.
Qed.

Lemma match_node_first_unshaped_witness :
  nodes (mkGraph [Samples.n2; Samples.n1; Samples.n2])
  = [Samples.n2] ++ Samples.n1 :: [Samples.n2]
  ∧ ∃ found,
      match_node Samples.relu_model Samples.relu_record "net" = Ok found
      ∧ found = Some Samples.n1
      ∧ match found with
        | Some n =>
            ∃ before after,
              [Samples.n2; Samples.n1; Samples.n2] = before ++ n :: after
              ∧ unshaped_of_kind "aten::relu" n
              ∧ Forall (λ n', ¬ unshaped_of_kind "aten::relu" n') before
        | None =>
            Forall (λ n', ¬ unshaped_of_kind "aten::relu" n')
                   [Samples.n2; Samples.n1; Samples.n2]
        end.
Proof.
  split; [reflexivity|].
  apply (match_node_first_unshaped
           Samples.relu_model Samples.relu_record "net" "net"
           (mkGraph [Samples.n2; Samples.n1; Samples.n2])); by vm_compute.
Defined.

Example match_node_relu_scenario :
  match_node Samples.relu_model_spec Samples.relu_record "net"
  = Ok (Some Samples.n1).
Proof. by vm_compute. Qed.

Example match_node_no_delimiter_absent :
  match_node Samples.conv_model Samples.relu_record "" = Ok None.
Proof. by vm_compute. Qed.

Lemma without_shape_info_iff (node : Node) :
  _without_shape_info node = true
  ↔ input_shape (attributes (operation node)) = []
    ∧ output_shape (attributes (operation node)) = [].
Proof.
  unfold _without_shape_info.
  destruct (input_shape _), (output_shape _); split;
    try done; intros [? ?]; done.
Qed.

Example without_shape_info_samples :
  _without_shape_info Samples.n1 = true
  ∧ _without_shape_info Samples.n2 = false.
Proof. by split. Qed.

(** * Further properties *)

(** ** Strings *)

Lemma string_app_nil (b : string) : "" +:+ b = b.
Proof. reflexivity. Qed.

Lemma string_app_cons (c : ascii) (a b : string) :
  String c a +:+ b = String c (a +:+ b).
Proof. reflexivity. Qed.

Lemma string_app_assoc (a b c : string) : (a +:+ b) +:+ c = a +:+ (b +:+ c).
Proof.
  induction a as [|x a IH]; [done|]. by rewrite !string_app_cons, IH.
Qed.

Lemma split_app_separator (sep : ascii) (a b : string) :
  split sep (a +:+ String sep b) = split sep a ++ split sep b.
Proof.
  induction a as [|c a IH].
  - rewrite string_app_nil. simpl. by rewrite Ascii.eqb_refl.
  - rewrite string_app_cons. simpl. rewrite IH.
    destruct (Ascii.eqb c sep); [done|].
    pose proof (split_nonempty sep a) as Hne.
    by destruct (split sep a).
Qed.

Lemma replace_join_split (sep : ascii) (new s : string) :
  replace sep new s = join new (split sep s).
Proof.
  unfold join. induction s as [|c s IH]; simpl; [done|].
  pose proof (split_nonempty sep s) as Hne. rewrite IH.
  destruct (Ascii.eqb c sep).
  - by destruct (split sep s).
  - destruct (split sep s) as [|w [|w' ws]]; done.
Qed.


Lemma occurs_app (c : ascii) (a b : string) :
  occurs c (a +:+ b) = occurs c a || occurs c b.
Proof.
  induction a as [|x a IH]; [done|].
  rewrite string_app_cons. simpl. by rewrite IH, orb_assoc.
Qed.

(** ** Name composition, continued *)

(** X1: [_convert_name] is splitting at the dots and joining with two
    underscores, so that building a full name from the list of the
    dotted segments and from the converted name give the same. *)
Theorem convert_name_joins_segments (name : string) :
  _convert_name name = join "__" (split "." name)
  ∧ ∀ prefix seq,
      build_full_name prefix (NameList (split "." name)) seq
      = build_full_name prefix (NameStr (_convert_name name)) seq.
Proof.
  assert (_convert_name name = join "__" (split "." name)) as Hjoin
    by apply replace_join_split.
  split; [done|]. intros prefix seq. unfold build_full_name. by rewrite Hjoin.
Qed.

(** X2: the converted name holds no dot, and converting is idempotent. *)
Theorem convert_name_idempotent (name : string) :
  occurs "." (_convert_name name) = false
  ∧ _convert_name (_convert_name name) = _convert_name name.
Proof.
  assert (occurs "." (_convert_name name) = false) as Hdot.
  { unfold _convert_name. induction name as [|c name IH]; simpl; [done|].
    destruct (Ascii.eqb c ".") eqn:Hc.
    - by rewrite occurs_app, IH.
    - simpl. by rewrite Hc. }
  split; [done|]. by apply convert_name_no_dot.
Qed.

(** X3: building a full name segment after segment is building it once
    from the list of the segments, as long as there is a segment; nested
    calls therefore collide with a single call on the joined name. *)
Theorem build_full_name_nested (prefix first : string) (rest : list string) :
  iterate_build_full_name prefix (first :: rest)
  = build_full_name prefix (NameList (first :: rest)) VNone
  ∧ ∀ name seq,
      build_full_name (build_full_name prefix (NameStr first) VNone)
                      (NameStr name) seq
      = build_full_name prefix (NameStr (first +:+ "__" +:+ name)) seq.
Proof.
  split.
  - revert prefix first. induction rest as [|second rest IH];
      intros prefix first; [done|].
    change (iterate_build_full_name prefix (first :: second :: rest))
      with (iterate_build_full_name
              (build_full_name prefix (NameStr first) VNone) (second :: rest)).
    rewrite IH. unfold build_full_name, join.
    change (String.concat "__" (first :: second :: rest))
      with (first +:+ "__" +:+ String.concat "__" (second :: rest)).
    by rewrite !string_app_assoc.
  - intros name seq. unfold build_full_name.
    destruct seq; cbv beta iota zeta; by rewrite !string_app_assoc.
Qed.


(** ** Scope resolution, continued *)

Section ResolverRuns.
Variable ir_model : Model.
Implicit Types (scope_names : list string) (full_name segment prefix : string).

Lemma lookups_from_along (seen todo : list string) full_name :
  lookups_from ir_model (seen ++ todo)
               (Z.of_nat <$> seq (length seen) (length todo)) full_name
  = lookups_along ir_model todo full_name.
Proof.
  revert seen full_name.
  induction todo as [|segment todo IH]; intros seen full_name; [done|].
  rewrite lookups_range_from. simpl.
  destruct (resolve_segment ir_model full_name segment); [|done].
  by rewrite IH.
Qed.

Lemma looked_up_names_along scope_names prefix :
  looked_up_names ir_model scope_names prefix
  = lookups_along ir_model scope_names prefix.
Proof. apply (lookups_from_along [] scope_names). Qed.

Lemma get_full_name_by_scope_name_cons segment scope_names prefix :
  get_full_name_by_scope_name ir_model (segment :: scope_names) prefix
  = (full_name ← resolve_segment ir_model prefix segment;
     get_full_name_by_scope_name ir_model scope_names full_name).
Proof.
  rewrite get_full_name_by_scope_name_segments. simpl.
  destruct (resolve_segment ir_model prefix segment) as [fn|e]; simpl; [|done].
  by rewrite get_full_name_by_scope_name_segments.
Qed.

Lemma get_full_name_by_scope_name_concat scope_names more prefix :
  get_full_name_by_scope_name ir_model (scope_names ++ more) prefix
  = (full_name ← get_full_name_by_scope_name ir_model scope_names prefix;
     get_full_name_by_scope_name ir_model more full_name).
Proof.
  rewrite !get_full_name_by_scope_name_segments, for_each_app.
  destruct (for_each _ scope_names prefix) as [fn|e]; simpl; [|done].
  by rewrite get_full_name_by_scope_name_segments.
Qed.

Lemma resolve_segment_raises_unlabelled full_name segment :
  raises (resolve_segment ir_model full_name segment)
  = unlabelled_layerchoice ir_model full_name.
Proof.
  unfold resolve_segment, next_full_name, unlabelled_layerchoice.
  destruct (get_node_by_name ir_model full_name) as [n|]; [|done].
  destruct (is_layerchoice_node (Some n)); [|done].
  unfold getkey. by destruct (parameters (operation n) !! "label").
Qed.

Lemma lookups_along_lookup scope_names prefix (k : nat) full_name :
  lookups_along ir_model scope_names prefix !! k = Some full_name
  ↔ (k < length scope_names)%nat
    ∧ get_full_name_by_scope_name ir_model (take k scope_names) prefix
      = Ok full_name.
Proof.
  revert prefix k.
  induction scope_names as [|segment rest IH]; intros prefix k.
  - simpl. split; [done|]. intros [Hk _]. lia.
  - destruct k as [|k].
    + simpl. split.
      * intros [= ->]. split; [lia|done].
      * by intros [_ [= ->]].
    + change (take (S k) (segment :: rest)) with (segment :: take k rest).
      rewrite get_full_name_by_scope_name_cons. simpl.
      destruct (resolve_segment ir_model prefix segment) as [fn|e]; simpl.
      * rewrite IH. split; intros [Hk Hrun]; (split; [lia|done]).
      * split; [done|]. by intros [_ ?].
Qed.

Lemma get_full_name_by_scope_name_raises_iff scope_names prefix :
  raises (get_full_name_by_scope_name ir_model scope_names prefix) = true
  ↔ Exists (λ fn, unlabelled_layerchoice ir_model fn = true)
           (lookups_along ir_model scope_names prefix).
Proof.
  revert prefix. induction scope_names as [|segment rest IH]; intros prefix.
  - simpl. split; [done|]. by intros ?%Exists_nil.
  - rewrite get_full_name_by_scope_name_cons. simpl. rewrite Exists_cons.
    rewrite <- (resolve_segment_raises_unlabelled prefix segment).
    destruct (resolve_segment ir_model prefix segment) as [fn|e]; simpl.
    + rewrite IH. split; [by right|]. by intros [?|?].
    + split; [by left|done].
Qed.

Lemma get_node_by_name_all_nodes node_name n :
  get_node_by_name ir_model node_name = Some n → n ∈ all_nodes ir_model.
Proof.
  unfold get_node_by_name. intros Hhead.
  by apply head_Some_elem_of, list_elem_of_filter in Hhead as [_ Hin].
Qed.

Lemma labelled_no_unlabelled_layerchoice full_name :
  labelled ir_model → unlabelled_layerchoice ir_model full_name = false.
Proof.
  intros Hlabelled. unfold unlabelled_layerchoice.
  destruct (get_node_by_name ir_model full_name) as [n|] eqn:Hn; [|done].
  apply get_node_by_name_all_nodes in Hn.
  unfold labelled in Hlabelled. rewrite Forall_forall in Hlabelled.
  specialize (Hlabelled n Hn).
  destruct (is_layerchoice_node (Some n)); [|done].
  destruct (Hlabelled eq_refl) as [label Hlabel].
  by rewrite Hlabel.
Qed.

Lemma get_full_name_by_scope_name_labelled scope_names prefix :
  labelled ir_model →
  raises (get_full_name_by_scope_name ir_model scope_names prefix) = false.
Proof.
  intros Hlabelled. apply not_true_is_false.
  rewrite get_full_name_by_scope_name_raises_iff, Exists_exists.
  intros (fn & _ & Hfn).
  by rewrite labelled_no_unlabelled_layerchoice in Hfn.
Qed.

End ResolverRuns.

(** X4: once the resolver has reached a layer-choice node with a label,
    the next segment resolves to [build_cand_name(segment, label)], and
    the segments after it are resolved as from that candidate name taken
    as the prefix. *)
Theorem resolver_enters_candidate (ir_model : Model)
    (scope_names more : list string) (segment prefix full_name : string)
    (n : Node) (label : pyval) :
  get_full_name_by_scope_name ir_model scope_names prefix = Ok full_name →
  get_node_by_name ir_model full_name = Some n →
  is_layerchoice_node (Some n) = true →
  parameters (operation n) !! "label" = Some label →
  get_full_name_by_scope_name ir_model (scope_names ++ segment :: more) prefix
  = get_full_name_by_scope_name ir_model more (build_cand_name segment label).
Proof.
  intros Hrun Hn Hlc Hlabel.
  rewrite get_full_name_by_scope_name_concat, Hrun. simpl.
  rewrite get_full_name_by_scope_name_cons.
  by rewrite (resolve_segment_layerchoice _ _ _ n label).
Qed.

Lemma resolver_enters_candidate_witness :
  build_cand_name "0" (VStr "mylabel") = "layerchoice_mylabel_0"
  ∧ get_full_name_by_scope_name Samples.lc_model ["lc"; "0"; "conv"] "_model"
    = get_full_name_by_scope_name Samples.lc_model ["conv"]
        (build_cand_name "0" (VStr "mylabel")).
Proof.
  split; [reflexivity|].
  apply (resolver_enters_candidate Samples.lc_model ["lc"] ["conv"] "0"
           "_model" "_model__lc" Samples.lc (VStr "mylabel")); by vm_compute.
Defined.

(** X5: resolving a concatenation of two scope-name sequences is
    resolving the first one and then the second one with the result as
    the prefix; an exception of the first run is the exception of the
    whole. *)
Theorem resolver_concatenation (ir_model : Model)
    (scope_names more : list string) (prefix : string) :
  get_full_name_by_scope_name ir_model (scope_names ++ more) prefix
  = match get_full_name_by_scope_name ir_model scope_names prefix with
    | Ok full_name => get_full_name_by_scope_name ir_model more full_name
    | Raise e => Raise e
    end.
Proof. apply get_full_name_by_scope_name_concat. Qed.

(** X6: the name looked up at step [k] is the full name resolved from
    the first [k] segments: the resolver looks up the prefix first, makes
    one lookup per segment, and never looks up its own final result. *)
Theorem resolver_lookups_are_partial_results (ir_model : Model)
    (scope_names : list string) (prefix : string) (k : nat)
    (full_name : string) :
  looked_up_names ir_model scope_names prefix !! k = Some full_name
  ↔ (k < length scope_names)%nat
    ∧ get_full_name_by_scope_name ir_model (take k scope_names) prefix
      = Ok full_name.
Proof. rewrite looked_up_names_along. apply lookups_along_lookup. Qed.

(** X7: the resolver raises exactly when one of the names it looks up
    is a layer-choice node that carries no label, and the exception is
    then [KeyError('label')]; the loop index is never out of range. *)
Theorem resolver_raises_iff (ir_model : Model) (scope_names : list string)
    (prefix : string) :
  (raises (get_full_name_by_scope_name ir_model scope_names prefix) = true
   ↔ Exists (λ fn, unlabelled_layerchoice ir_model fn = true)
            (looked_up_names ir_model scope_names prefix))
  ∧ ∀ e, get_full_name_by_scope_name ir_model scope_names prefix = Raise e →
         e = KeyError "label".
Proof.
  split.
  - rewrite looked_up_names_along.
    apply get_full_name_by_scope_name_raises_iff.
  - intros e. apply get_full_name_by_scope_name_raises.
Qed.

Lemma resolver_raises_iff_witness :
  get_full_name_by_scope_name Samples.unlabelled_model ["conv1"] "_model"
  = Raise (KeyError "label")
  ∧ unlabelled_layerchoice Samples.unlabelled_model "_model" = true.
Proof.
  pose proof (resolver_raises_iff Samples.unlabelled_model ["conv1"] "_model")
    as [_ Hexn].
  split; [|by vm_compute].
  destruct (get_full_name_by_scope_name
              Samples.unlabelled_model ["conv1"] "_model") as [fn|e] eqn:Hrun.
  - by vm_compute in Hrun.
  - by rewrite (Hexn e eq_refl).
Defined.

Lemma resolver_lookups_are_partial_results_witness :
  looked_up_names Samples.lc_model ["lc"; "0"] "_model" !! 1%nat
  = Some "_model__lc"
  ∧ looked_up_names Samples.lc_model ["lc"; "0"] "_model" !! 2%nat = None.
Proof.
  split.
  - apply (resolver_lookups_are_partial_results
             Samples.lc_model ["lc"; "0"] "_model" 1 "_model__lc").
    split; [simpl; lia|by vm_compute].
  - destruct (looked_up_names Samples.lc_model ["lc"; "0"] "_model" !! 2%nat)
      as [fn|] eqn:Hfn; [|done].
    apply (resolver_lookups_are_partial_results
             Samples.lc_model ["lc"; "0"] "_model" 2 fn) in Hfn as [Hk _].
    simpl in Hk. lia.
Defined.

(** ** Node matching, continued *)

Section MatcherPaths.
Variable ir_model : Model.
Implicit Types (prefix : string) (torch_node : TraceNode).

Lemma last_scope_after_slash (outer inner : string) :
  occurs "/" inner = false →
  getitem (split "/" (outer +:+ String "/" inner)) (-1) = Ok inner.
Proof.
  intros Hinner.
  rewrite split_app_separator, (split_no_separator _ inner Hinner).
  apply getitem_last.
Qed.

Lemma last_scope_no_slash (inner : string) :
  occurs "/" inner = false → getitem (split "/" inner) (-1) = Ok inner.
Proof.
  intros Hinner. rewrite (split_no_separator _ inner Hinner).
  apply (getitem_last []).
Qed.

Lemma scope_names_after_root (root rest : string) :
  occurs "." root = false →
  drop 1 (split "." (root +:+ String "." rest)) = split "." rest.
Proof.
  intros Hroot.
  by rewrite split_app_separator, (split_no_separator _ root Hroot).
Qed.

Lemma match_node_labelled torch_node prefix :
  labelled ir_model → raises (match_node ir_model torch_node prefix) = false.
Proof.
  intros Hlabelled. unfold match_node.
  destruct (getitem_minus_one_nonempty (split "/" (scopeName torch_node)))
    as (last_scope & -> & _); [apply split_nonempty|].
  simpl.
  pose proof (get_full_name_by_scope_name_labelled ir_model
                (drop 1 (split "." last_scope)) prefix Hlabelled) as Hrun.
  destruct (get_full_name_by_scope_name _ _ _) as [fn|e]; [|done].
  simpl. by destruct (graphs ir_model !! fn).
Qed.

End MatcherPaths.




(** X8: on a model in which every layer-choice node carries a label,
    neither the resolver nor [match_node] raises, whatever the scope
    path, the kind and the prefix. *)
Theorem match_node_total_on_labelled (ir_model : Model)
    (torch_node : TraceNode) (scope_names : list string) (prefix : string) :
  labelled ir_model →
  raises (get_full_name_by_scope_name ir_model scope_names prefix) = false
  ∧ raises (match_node ir_model torch_node prefix) = false.
Proof.
  intros Hlabelled. split.
  - by apply get_full_name_by_scope_name_labelled.
  - by apply match_node_labelled.
Qed.

Lemma match_node_total_on_labelled_witness :
  labelled Samples.lc_model
  ∧ raises (get_full_name_by_scope_name
              Samples.lc_model ["lc"; "0"] "_model") = false
  ∧ raises (match_node Samples.lc_model Samples.conv_record "_model") = false.
Proof.
  assert (labelled Samples.lc_model) as Hlabelled.
  { unfold labelled. vm_compute all_nodes.
    repeat constructor; intros Hlc; [by vm_compute in Hlc|by eexists]. }
  split; [exact Hlabelled|].
  exact (match_node_total_on_labelled Samples.lc_model Samples.conv_record
           ["lc"; "0"] "_model" Hlabelled).
Defined.

(** X9: [match_node] reads the scope path only after its last [/], and
    reads nothing of the record but its kind and its scope path: the
    enclosing scopes and the inputs and outputs of the record do not
    change the match. *)
Theorem match_node_after_last_slash (ir_model : Model)
    (operation_kind outer inner prefix : string)
    (ins outs ins' outs' : list Value) :
  occurs "/" inner = false →
  match_node ir_model
    (mkTraceNode operation_kind (outer +:+ String "/" inner) ins outs) prefix
  = match_node ir_model (mkTraceNode operation_kind inner ins' outs') prefix.
Proof.
  intros Hinner. unfold match_node. simpl scopeName.
  by rewrite (last_scope_after_slash outer inner Hinner),
             (last_scope_no_slash inner Hinner).
Qed.

Lemma match_node_after_last_slash_witness :
  occurs "/" "__module.conv1" = false
  ∧ match_node Samples.conv_model
      (mkTraceNode "aten::_convolution" "__module/__module.conv1"
                   (inputs Samples.conv_record) (outputs Samples.conv_record))
      "_model"
    = match_node Samples.conv_model
        (mkTraceNode "aten::_convolution" "__module.conv1" [] []) "_model".
Proof.
  split; [reflexivity|].
  apply (match_node_after_last_slash Samples.conv_model "aten::_convolution"
           "__module" "__module.conv1" "_model").
  reflexivity.
Defined.

(** X10: in the last component of the scope path, the token before the
    first dot is dropped and the dotted segments after it are the scope
    names: the full name is resolved from them, whatever the root token
    is. *)
Theorem match_node_root_token_dropped (ir_model : Model)
    (operation_kind root rest prefix : string) :
  occurs "/" root = false →
  occurs "/" rest = false →
  occurs "." root = false →
  resolved_full_name ir_model
    (record_at operation_kind (root +:+ String "." rest)) prefix
  = get_full_name_by_scope_name ir_model (split "." rest) prefix
  ∧ ∀ root',
      occurs "/" root' = false → occurs "." root' = false →
      match_node ir_model
        (record_at operation_kind (root' +:+ String "." rest)) prefix
      = match_node ir_model
          (record_at operation_kind (root +:+ String "." rest)) prefix.
Proof.
  intros Hslash Hrest Hdot.
  assert (∀ r, occurs "/" r = false → occurs "." r = false →
               resolved_full_name ir_model
                 (record_at operation_kind (r +:+ String "." rest)) prefix
               = get_full_name_by_scope_name ir_model (split "." rest) prefix)
    as Hresolved.
  { intros r Hr Hr'. unfold resolved_full_name, record_at. simpl scopeName.
    rewrite last_scope_no_slash.
    - simpl. by rewrite scope_names_after_root.
    - rewrite occurs_app, Hr. simpl. exact Hrest. }
  split; [by apply Hresolved|].
  intros root' Hslash' Hdot'.
  by rewrite !match_node_resolved, !Hresolved.
Qed.

Lemma match_node_root_token_dropped_witness :
  resolved_full_name Samples.conv_model
    (record_at "aten::_convolution" "__module.conv1") "_model"
  = get_full_name_by_scope_name Samples.conv_model ["conv1"] "_model"
  ∧ match_node Samples.conv_model
      (record_at "aten::_convolution" "Net.conv1") "_model"
    = match_node Samples.conv_model
        (record_at "aten::_convolution" "__module.conv1") "_model".
Proof.
  pose proof (match_node_root_token_dropped Samples.conv_model
                "aten::_convolution" "__module" "conv1" "_model"
                eq_refl eq_refl eq_refl) as [Hresolved Hroot].
  split; [exact Hresolved|].
  exact (Hroot "Net" eq_refl eq_refl).
Defined.

(** X11: when the resolved full name names a sub-graph that holds a
    node of the kind of the record for which [_without_shape_info]
    holds, [match_node] does find a node, of that kind and with an empty
    [input_shape]. *)
Theorem match_node_finds_shapeless (ir_model : Model) (torch_node : TraceNode)
    (prefix full_name : string) (graph : Graph) (n : Node) :
  resolved_full_name ir_model torch_node prefix = Ok full_name →
  graphs ir_model !! full_name = Some graph →
  n ∈ nodes graph →
  op_type (operation n) = kind torch_node →
  _without_shape_info n = true →
  ∃ found,
    match_node ir_model torch_node prefix = Ok (Some found)
    ∧ found ∈ nodes graph
    ∧ op_type (operation found) = kind torch_node
    ∧ input_shape (attributes (operation found)) = [].
Proof.
  intros Hname Hgraph Hn Hkind Hshapeless.
  rewrite match_node_resolved, Hname. simpl. rewrite Hgraph.
  pose proof (first_unshaped_by_type (kind torch_node) (nodes graph)) as Hspec.
  unfold get_nodes_by_type.
  destruct (first_unshaped _) as [found|].
  - destruct Hspec as (before & after & Hnodes & [Hk Hs] & _).
    exists found. split; [done|]. split; [|done].
    rewrite Hnodes. apply elem_of_app. right. by left.
  - rewrite Forall_forall in Hspec. destruct (Hspec n Hn).
    apply without_shape_info_iff in Hshapeless as [Hin _]. by split.
Qed.

Lemma match_node_finds_shapeless_witness :
  _without_shape_info Samples.n1 = true
  ∧ ∃ found,
      match_node Samples.relu_model Samples.relu_record "net" = Ok (Some found)
      ∧ found ∈ [Samples.n2; Samples.n1; Samples.n2]
      ∧ op_type (operation found) = "aten::relu"
      ∧ input_shape (attributes (operation found)) = [].
Proof.
  split; [reflexivity|].
  apply (match_node_finds_shapeless Samples.relu_model Samples.relu_record
           "net" "net" (mkGraph [Samples.n2; Samples.n1; Samples.n2])
           Samples.n1); try (by vm_compute).
  simpl. apply list_elem_of_In. simpl. tauto.
Defined.

(** ** Trace metadata extraction, continued *)

Section ExtractorRuns.
Variable trace_node : TraceNode.

Lemma extract_cases :
  (kind trace_node ≠ "aten::cat"
   ∧ _extract_info_from_trace_node trace_node
     = Ok ({| sp_input_shape := tensor_shapes (inputs trace_node);
              sp_output_shape := tensor_shapes (outputs trace_node) |}, None))
  ∨ (kind trace_node = "aten::cat"
     ∧ inputs trace_node = []
     ∧ _extract_info_from_trace_node trace_node = Raise IndexError)
  ∨ (kind trace_node = "aten::cat"
     ∧ (∃ first rest,
          inputs trace_node = first :: rest
          ∧ Exists (λ v, is_tensor v = false) (inputs (node first)))
     ∧ _extract_info_from_trace_node trace_node = Raise RuntimeError)
  ∨ (kind trace_node = "aten::cat"
     ∧ (∃ first,
          inputs trace_node = [first]
          ∧ Forall (λ v, is_tensor v = true) (inputs (node first)))
     ∧ _extract_info_from_trace_node trace_node = Raise IndexError)
  ∨ (kind trace_node = "aten::cat"
     ∧ ∃ first second rest,
         inputs trace_node = first :: second :: rest
         ∧ Forall (λ v, is_tensor v = true) (inputs (node first))
         ∧ _extract_info_from_trace_node trace_node
           = Ok ({| sp_input_shape :=
                      (λ input, tensor_sizes (type input))
                        <$> inputs (node first);
                    sp_output_shape := tensor_shapes (outputs trace_node) |},
                 Some {[ "dim" := toIValue second ]})).
Proof.
  destruct (decide (kind trace_node = "aten::cat")) as [Hkind|Hkind].
  - right. destruct (inputs trace_node) as [|first rest] eqn:Hinputs.
    + left. split; [done|]. split; [done|]. by apply extract_cat_no_input.
    + right.
      destruct (decide (Forall (λ v, is_tensor v = true)
                               (inputs (node first)))) as [Htensors|Hother].
      * right. destruct rest as [|second rest].
        -- left. split; [done|]. split; [by exists first|].
           by apply (extract_cat_one_input _ first).
        -- right. split; [done|]. exists first, second, rest.
           split; [done|]. split; [done|].
           by apply (extract_cat_two_inputs _ first second rest).
      * left. split; [done|].
        apply not_Forall_Exists in Hother; [|apply _].
        assert (Exists (λ v, is_tensor v = false) (inputs (node first)))
          as Hother'.
        { eapply Exists_impl; [exact Hother|]. intros v.
          apply not_true_is_false. }
        split; [by exists first, rest|].
        by apply (extract_cat_not_tensor _ first rest).
  - left. split; [done|]. by apply extract_not_cat.
Qed.

Lemma tensor_shapes_sublist (vs : list Value) :
  Ok <$> tensor_shapes vs `sublist_of` ((λ v, sizes (type v)) <$> vs).
Proof.
  unfold tensor_shapes.
  transitivity ((λ v, sizes (type v)) <$> filter (λ v, is_tensor v = true) vs).
  - transitivity
      (Ok <$> ((λ v, tensor_sizes (type v))
                 <$> filter (λ v, is_tensor v = true) vs)).
    + apply fmap_sublist, sublist_filter.
    + rewrite <- list_fmap_compose.
      rewrite (Forall_fmap_ext_1 _ (λ v, sizes (type v))); [done|].
      apply Forall_forall. intros v [Hv _]%list_elem_of_filter. simpl.
      by rewrite (sizes_tensor v Hv).
  - apply fmap_sublist, sublist_filter.
Qed.

Lemma tensors_not_other (vs : list Value) :
  Forall (λ v, is_tensor v = true) vs →
  ¬ Exists (λ v, is_tensor v = false) vs.
Proof.
  rewrite Forall_forall, Exists_exists. intros Hall (v & Hv & Hfalse).
  specialize (Hall v Hv). congruence.
Qed.

End ExtractorRuns.

(** X12: the extractor raises exactly for a concatenation record that
    has fewer than two inputs or whose first input is produced by a node
    with an input that is not of tensor type. The exception is
    [RuntimeError] when there is such an input, whose [sizes()] is asked
    for, and [IndexError] otherwise; every other record yields a
    result. *)
Theorem extract_raises_iff (trace_node : TraceNode) :
  (raises (_extract_info_from_trace_node trace_node) = true
   ↔ kind trace_node = "aten::cat"
     ∧ ((length (inputs trace_node) < 2)%nat
        ∨ ∃ first,
            head (inputs trace_node) = Some first
            ∧ Exists (λ v, is_tensor v = false) (inputs (node first))))
  ∧ ∀ e,
      _extract_info_from_trace_node trace_node = Raise e →
      (e = RuntimeError
       ∧ ∃ first,
           head (inputs trace_node) = Some first
           ∧ Exists (λ v, is_tensor v = false) (inputs (node first)))
      ∨ (e = IndexError
         ∧ (length (inputs trace_node) < 2)%nat
         ∧ ∀ first,
             head (inputs trace_node) = Some first →
             Forall (λ v, is_tensor v = true) (inputs (node first))).
Proof.
  destruct (extract_cases trace_node)
    as [[Hkind ->]
       |[(Hkind & Hin & ->)
        |[(Hkind & (f & r & Hin & Hother) & ->)
         |[(Hkind & (f & Hin & Htensors) & ->)
          |(Hkind & f & s & r & Hin & Htensors & ->)]]]];
    rewrite ?Hin; simpl.
  - split; [|done]. split; [done|]. by intros [? _].
  - split.
    + split; [|done]. intros _. split; [done|]. left. lia.
    + intros e [= <-]. right. split; [done|]. split; [lia|]. by intros ?.
  - split.
    + split; [|done]. intros _. split; [done|]. right. by exists f.
    + intros e [= <-]. left. split; [done|]. by exists f.
  - split.
    + split; [|done]. intros _. split; [done|]. left. lia.
    + intros e [= <-]. right. split; [done|]. split; [lia|].
      by intros first [= <-].
  - split; [|done]. split; [done|]. intros [_ [Hlen|(f' & [= <-] & Hother)]].
    + lia.
    + by apply tensors_not_other in Hother.
Qed.

Lemma extract_raises_iff_witness :
  _extract_info_from_trace_node Samples.cat_split_record = Raise RuntimeError
  ∧ _extract_info_from_trace_node Samples.cat_short_record = Raise IndexError
  ∧ raises (_extract_info_from_trace_node Samples.cat_record) = false.
Proof.
  split; [|split].
  - destruct (_extract_info_from_trace_node Samples.cat_split_record)
      as [r|e] eqn:Hrun; [by vm_compute in Hrun|].
    destruct (proj2 (extract_raises_iff Samples.cat_split_record) e Hrun)
      as [[-> _]|(_ & _ & Htensors)]; [done|].
    specialize (Htensors Samples.split_list eq_refl).
    apply Forall_cons in Htensors as [_ Htensors].
    by apply Forall_cons in Htensors as [Hint _].
  - destruct (_extract_info_from_trace_node Samples.cat_short_record)
      as [r|e] eqn:Hrun; [by vm_compute in Hrun|].
    destruct (proj2 (extract_raises_iff Samples.cat_short_record) e Hrun)
      as [[_ (f & [= <-] & Hother)]|[-> _]]; [|done].
    apply Exists_cons in Hother as [Hfalse|Hother]; [done|].
    apply Exists_cons in Hother as [Hfalse|Hother]; [done|].
    by apply Exists_nil in Hother.
  - apply not_true_is_false. intros Hraises.
    apply (proj1 (extract_raises_iff Samples.cat_record)) in Hraises
      as [_ [Hlen|(f & [= <-] & Hother)]].
    + simpl in Hlen. lia.
    + apply Exists_cons in Hother as [Hfalse|Hother]; [done|].
      apply Exists_cons in Hother as [Hfalse|Hother]; [done|].
      by apply Exists_nil in Hother.
Defined.

(** X13: whenever the extractor returns, for any kind, [output_shape]
    is a subsequence, in order, of the sizes of the outputs and holds
    only non-empty shapes; for a record that is not a concatenation the
    same holds of [input_shape] and the inputs, while for a
    concatenation [input_shape] has one entry for every input of the node
    that produces the first input, its sizes, empty and unknown shapes
    included. *)
Theorem extract_shapes_in_order (trace_node : TraceNode)
    (shape_parameters : ShapeParameters)
    (parameters : option (gmap string pyval)) :
  _extract_info_from_trace_node trace_node
  = Ok (shape_parameters, parameters) →
  Ok <$> sp_output_shape shape_parameters
    `sublist_of` ((λ v, sizes (type v)) <$> outputs trace_node)
  ∧ Forall (λ s, truthy s = true) (sp_output_shape shape_parameters)
  ∧ (kind trace_node ≠ "aten::cat" →
     Ok <$> sp_input_shape shape_parameters
       `sublist_of` ((λ v, sizes (type v)) <$> inputs trace_node)
     ∧ Forall (λ s, truthy s = true) (sp_input_shape shape_parameters))
  ∧ (kind trace_node = "aten::cat" →
     ∃ first,
       head (inputs trace_node) = Some first
       ∧ length (sp_input_shape shape_parameters)
         = length (inputs (node first))
       ∧ Ok <$> sp_input_shape shape_parameters
         = (λ v, sizes (type v)) <$> inputs (node first)).
Proof.
  assert (∀ vs, Forall (λ s, truthy s = true) (tensor_shapes vs)) as Hfilter.
  { intros vs. apply Forall_forall. intros s Hs.
    by apply elem_of_tensor_shapes in Hs as (v & _ & _ & _ & Hs). }
  intros Hrun.
  destruct (extract_cases trace_node)
    as [[Hkind H]
       |[(Hkind & Hin & H)
        |[(Hkind & _ & H)
         |[(Hkind & _ & H)
          |(Hkind & f & s & r & Hin & Htensors & H)]]]];
    rewrite H in Hrun; try done; injection Hrun as <- <-; simpl.
  - split; [apply tensor_shapes_sublist|]. split; [apply Hfilter|].
    split; [|done]. intros _. split; [apply tensor_shapes_sublist|apply Hfilter].
  - split; [apply tensor_shapes_sublist|]. split; [apply Hfilter|].
    split; [done|]. intros _. exists f. rewrite Hin. split; [done|].
    split; [by rewrite length_fmap|].
    rewrite <- list_fmap_compose. apply Forall_fmap_ext_1.
    eapply Forall_impl; [exact Htensors|]. intros v Hv. simpl.
    by rewrite (sizes_tensor v Hv).
Qed.

Lemma extract_shapes_in_order_witness :
  (∃ parameters,
     _extract_info_from_trace_node Samples.add_record
     = Ok ({| sp_input_shape := [Some [2; 5]];
              sp_output_shape := [Some [2; 5]] |}, parameters))
  ∧ Ok <$> [Some [2; 5]]
      `sublist_of` ((λ v, sizes (type v)) <$> inputs Samples.add_record).
Proof.
  assert (_extract_info_from_trace_node Samples.add_record
          = Ok ({| sp_input_shape := [Some [2; 5]];
                   sp_output_shape := [Some [2; 5]] |}, None)) as Hrun
    by (by vm_compute).
  split; [by eexists|].
  destruct (extract_shapes_in_order _ _ _ Hrun) as (_ & _ & Hinputs & _).
  apply Hinputs. discriminate.
Defined.
